(** * Entropy client: repository, lock, hook and match/mask methods

    A shallow embedding of [libraries/entropy/client/interfaces/methods.py]
    (classes [RepositoryMixin], [MiscMixin] and [MatchMixin]) together with
    the properties its specification states about it.

    Conventions.
    - Python [int] is [Z]; [str] is [string]; a [list] is a [list]; a [dict]
      or [set] used as a table is a [gmap] or [gset]; a tuple is a product.
    - A method that can raise returns a [result]; instance and class
      attributes that a method mutates are threaded explicitly.
    - Collaborators that live outside this file of the program (the database
      handle, the settings loader, the file system, the version comparator)
      are either section variables or small models introduced by a comment
      that says so. *)

From Stdlib Require Import ZArith List String Ascii Bool Lia DecimalString.
From Stdlib Require DecimalPos DecimalZ.
From stdpp Require Import base option list gmap sets strings.
Import ListNotations.
Local Open Scope string_scope.
Local Open Scope list_scope.
Local Open Scope Z_scope.

(** ** Python results *)

(** The exceptions that the modelled methods can let escape. *)
Inductive exn : Type :=
  | TypeError
  | IndexError
  | AttributeError
  | UnboundLocalError
  | RepositoryError
  | OperationalError
  | DatabaseError
  | SystemDatabaseError
  | IOError.

Inductive result (A : Type) : Type :=
  | Returned (a : A)
  | Raised (e : exn).
Arguments Returned {A} a.
Arguments Raised {A} e.

#[global] Instance result_bind : MBind result := fun A B k r =>
  match r with
  | Returned a => k a
  | Raised e => Raised e
  end.

#[global] Instance result_ret : MRet result := fun A a => Returned a.

(** Unpacking [a, b = e] where [e] may be [None] raises [TypeError]. *)
Definition unpack {A} (o : option A) : result A :=
  match o with
  | Some a => Returned a
  | None => Raised TypeError
  end.

(** A package match [(idpackage, repoid)]. *)
Definition Match : Type := (Z * string)%type.

(** ** The package database handle *)

Module EntropyRepository.

(** Modelled from the spec: the embedded per-repository package database
    ([entropy.db.EntropyRepository]) is an external collaborator that is
    not part of these sources.  It is modelled as a table of package rows
    and the queries named in the specification are read off that table:
    a query about an absent package id answers [None], and [searchKeySlot]
    answers the ids of the rows that share the given key and slot, in
    table order. *)
Record row : Type := {
  idpackage : Z;
  atom : string;
  key : string;
  slot : string;
  version : string;
  versiontag : string;
  revision : Z;
  digest : string;
}.

Definition t : Type := list row.

Definition fetch (db : t) (id : Z) : option row :=
  List.find (fun r => Z.eqb (idpackage r) id) db.

Definition retrieveKeySlot (db : t) (id : Z) : option (string * string) :=
  match fetch db id with
  | Some r => Some (key r, slot r)
  | None => None
  end.

Definition getVersioningData (db : t) (id : Z)
  : option (string * string * Z) :=
  match fetch db id with
  | Some r => Some (version r, versiontag r, revision r)
  | None => None
  end.

Definition retrieveAtom (db : t) (id : Z) : option string :=
match fetch db id with
| Some r => Some (atom r)
| None => None
end.

Definition retrieveDigest (db : t) (id : Z) : option string :=
  match fetch db id with
  | Some r => Some (digest r)
  | None => None
  end.

Definition shares (k s : string) (r : row) : bool :=
  String.eqb (key r) k && String.eqb (slot r) s.

Definition searchKeySlot (db : t) (k s : string) : list Z :=
  List.map idpackage (List.filter (shares k s) db).

End EntropyRepository.

(** ** [MatchMixin.get_package_action] *)

Module PackageAction.
Import EntropyRepository.

Section WithComparator.

(** [entropy.tools.entropy_compare_versions] on two
    [(version, tag, revision)] triples; its sign is all that is used. *)
Variable entropy_compare_versions :
  string * string * Z -> string * string * Z -> Z.

(** [self.open_repository]: the handle of each repository id, or the
    exception raised while opening it. *)
Variable open_repository : string -> result EntropyRepository.t.

(** [self._installed_repository]. *)
Variable installed_repository : EntropyRepository.t.

Definition option_eqb (a b : option string) : bool :=
  match a, b with
  | Some x, Some y => String.eqb x y
  | None, None => true
  | _, _ => false
  end.

Definition get_package_action (m : Match) : result Z :=
  dbconn ← open_repository (snd m);
  '(pkgkey, pkgslot) ← unpack (retrieveKeySlot dbconn (fst m));
  let results := searchKeySlot installed_repository pkgkey pkgslot in
  match results with
  | [] => Returned 1
  | installed_idpackage :: _ =>
      pkg ← unpack (getVersioningData dbconn (fst m));
      inst ← unpack (getVersioningData installed_repository
                        installed_idpackage);
      let pkgcmp := entropy_compare_versions pkg inst in
      if pkgcmp =? 0 then
        let inst_digest :=
          retrieveDigest installed_repository installed_idpackage in
        let repo_digest := retrieveDigest dbconn (fst m) in
        if negb (option_eqb inst_digest repo_digest)
        then Returned 2
        else Returned 0
      else if pkgcmp >? 0 then Returned 2
      else Returned (-1)
  end.

End WithComparator.
End PackageAction.

(** ** Strings and paths as Python and [posixpath] have them *)

Module PyStr.

Definition is_slash (c : ascii) : bool := Ascii.eqb c "/"%char.

Fixpoint has_slash (s : string) : bool :=
  match s with
  | EmptyString => false
  | String c r => is_slash c || has_slash r
  end.

Fixpoint all_slashes (s : string) : bool :=
  match s with
  | EmptyString => true
  | String c r => is_slash c && all_slashes r
  end.

Definition is_empty (s : string) : bool :=
  match s with EmptyString => true | _ => false end.

(** [s.rstrip('/')]. *)
Fixpoint rstrip_slash (s : string) : string :=
  match s with
  | EmptyString => EmptyString
  | String c r =>
      let r' := rstrip_slash r in
      if is_empty r' && is_slash c then EmptyString else String c r'
  end.

(** [(s[:i], s[i:])] for [i = s.rfind('/') + 1]. *)
Fixpoint rsplit_slash (s : string) : string * string :=
  match s with
  | EmptyString => (EmptyString, EmptyString)
  | String c r =>
      let '(h, t) := rsplit_slash r in
      if is_empty h
      then if is_slash c then (String c EmptyString, r)
           else (EmptyString, String c r)
      else (String c h, t)
  end.

(** [s.endswith('/')]. *)
Fixpoint endswith_slash (s : string) : bool :=
  match s with
  | EmptyString => false
  | String c EmptyString => is_slash c
  | String _ r => endswith_slash r
  end.

(** [s.startswith('/')]. *)
Definition startswith_slash (s : string) : bool :=
  match s with
  | String c _ => is_slash c
  | EmptyString => false
  end.

(** [s.startswith(p)]. *)
Definition startswith (p s : string) : bool := String.prefix p s.

(** [s.find(sub) != -1]. *)
Fixpoint contains (sub s : string) : bool :=
  String.prefix sub s ||
  match s with
  | EmptyString => false
  | String _ r => contains sub r
  end.

(** [s.endswith(p)]. *)
Fixpoint endswith (p s : string) : bool :=
  String.eqb p s ||
  match s with
  | EmptyString => false
  | String _ r => endswith p r
  end.

(** [s.split("|")]. *)
Fixpoint split_pipe (s : string) : list string :=
  match s with
  | EmptyString => [EmptyString]
  | String c r =>
      if Ascii.eqb c "|"%char then EmptyString :: split_pipe r
      else match split_pipe r with
           | h :: t => String c h :: t
           | [] => [String c EmptyString]
           end
  end.

(** The characters [str.strip()] removes: space, tab, line feed, carriage
    return, vertical tab and form feed. *)
Definition is_space (c : ascii) : bool :=
  let n := nat_of_ascii c in
  (Nat.eqb n 32 || (Nat.leb 9 n && Nat.leb n 13))%bool.

Fixpoint lstrip (s : string) : string :=
  match s with
  | EmptyString => EmptyString
  | String c r => if is_space c then lstrip r else s
  end.

Fixpoint rstrip (s : string) : string :=
  match s with
  | EmptyString => EmptyString
  | String c r =>
      let r' := rstrip r in
      if is_empty r' && is_space c then EmptyString else String c r'
  end.

(** [s.strip()]. *)
Definition strip (s : string) : string := rstrip (lstrip s).

(** [s[1:]]. *)
Definition tail (s : string) : string :=
  match s with
  | EmptyString => EmptyString
  | String _ r => r
  end.

(** [sep.join(xs)]. *)
Fixpoint str_join (sep : string) (xs : list string) : string :=
  match xs with
  | [] => EmptyString
  | [x] => x
  | x :: rest => x +:+ sep +:+ str_join sep rest
  end.

(** The line terminator. *)
Definition LF : string := String (ascii_of_nat 10) EmptyString.

(** [sorted(xs)] for the order [leb]. *)
Fixpoint insert_sorted {A} (leb : A -> A -> bool) (x : A) (xs : list A)
  : list A :=
  match xs with
  | [] => [x]
  | y :: ys => if leb x y then x :: xs else y :: insert_sorted leb x ys
  end.

Definition sorted_by {A} (leb : A -> A -> bool) (xs : list A) : list A :=
  List.fold_right (insert_sorted leb) [] xs.

Definition sorted (xs : list string) : list string :=
  sorted_by String.leb xs.

(** Tuple comparison [(a1, b1) <= (a2, b2)] on pairs of strings. *)
Definition pair_leb (x y : string * string) : bool :=
  String.ltb (fst x) (fst y)
  || (String.eqb (fst x) (fst y) && String.leb (snd x) (snd y)).

(** [xs.remove(x)] when [x] is in [xs]: the first occurrence goes. *)
Fixpoint list_remove (x : string) (xs : list string) : list string :=
  match xs with
  | [] => []
  | y :: ys => if String.eqb x y then ys else y :: list_remove x ys
  end.

(** [x in xs] on a list of strings. *)
Definition str_in (x : string) (xs : list string) : bool :=
  List.existsb (String.eqb x) xs.

(** [str(n)] for a Python [int]. *)
Definition str_of_int (n : Z) : string :=
  DecimalString.NilZero.string_of_int (Z.to_int n).

End PyStr.

Module PosixPath.
Import PyStr.

(** [os.path.dirname]. *)
Definition dirname (p : string) : string :=
  let head := fst (rsplit_slash p) in
  if negb (is_empty head) && negb (all_slashes head)
  then rstrip_slash head
  else head.

(** [os.path.basename]. *)
Definition basename (p : string) : string := snd (rsplit_slash p).

(** [os.path.join(a, b)]. *)
Definition join (a b : string) : string :=
  if startswith_slash b then b
  else if is_empty a || endswith_slash a then a +:+ b
  else a +:+ "/" +:+ b.

End PosixPath.

(** ** [RepositoryMixin.backup_database] and [restore_database] *)

Module Backup.
Import PyStr PosixPath.

(** What the operating system and [entropy.tools] answer during one call.
    [compress_file_raises src dst] says whether [compress_file] (or
    [uncompress_file]) fails on that pair of paths. *)
Record os_env : Type := {
  access_W : string -> bool;
  access_R : string -> bool;
  isdir : string -> bool;
  isfile : string -> bool;
  check_required_space : string -> Z -> bool;
  compress_file_raises : string -> string -> bool;
  uncompress_file_raises : string -> string -> bool;
}.

(** The fields of [datetime.fromtimestamp(time.time())] read by [get_ts]. *)
Record datetime : Type := {
  year : Z; month : Z; day : Z; hour : Z; minute : Z; second : Z;
}.

(** What a call does besides returning. *)
Inductive event : Type :=
  | Output (text : string)
  | CompressFile (src dst : string) (level : Z)
  | UncompressFile (src dst : string)
  | PrintTraceback
  | ClearCache.

(** Reading a local variable that may not have been assigned. *)
Definition read_local {A} (v : option A) : result A :=
  match v with
  | Some a => Returned a
  | None => Raised UnboundLocalError
  end.

Definition get_ts (ts : datetime) : string :=
  str_of_int (year ts) +:+ str_of_int (month ts) +:+ str_of_int (day ts)
  +:+ "_" +:+ str_of_int (hour ts) +:+ "h" +:+ str_of_int (minute ts)
  +:+ "m" +:+ str_of_int (second ts) +:+ "s".

Section WithConstants.

(** [etpConst['dbbackupprefix']]. *)
Variable dbbackupprefix : string.

Definition comp_dbname (dbpath : string) (ts : datetime) : string :=
  dbbackupprefix +:+ basename dbpath +:+ "." +:+ get_ts ts +:+ ".bz2".

(** The colour wrappers ([darkred], [blue], ...) and the translation
    function [_] are taken to be the identity on the text.  The first
    component of the answer lists the effects in the order they happen. *)
Definition backup_database (os : os_env) (now : datetime)
    (dbpath : string) (backup_dir : option string) (silent : bool)
    (compress_level : Z) : list event * result (bool * string) :=
  let compress_level :=
    if (1 <=? compress_level) && (compress_level <=? 9)
    then compress_level else 9 in
  let backup_dir := dirname dbpath in
  let backup_dir := if is_empty backup_dir then dirname dbpath
                    else backup_dir in
  let dbname := basename dbpath in
  let bytes_required := 1024000 * 300 in
  if negb (access_W os backup_dir && isdir os backup_dir
           && isfile os dbpath && access_R os dbpath
           && check_required_space os backup_dir bytes_required)
  then
    let txt := "Cannot backup selected database" +:+ ": " +:+ dbpath
               +:+ ", " +:+ "permission denied" in
    let '(out, mytxt) :=
      if negb silent then ([Output txt], Some txt) else ([], None) in
    (out, t ← read_local mytxt; Returned (false, t))
  else
    let comp_dbpath := join backup_dir (comp_dbname dbpath now) in
    let out1 :=
      if negb silent
      then [Output ("Backing up database to" +:+ ": "
                    +:+ basename comp_dbpath +:+ " ...")]
      else [] in
    let out2 := out1 ++ [CompressFile dbpath comp_dbpath compress_level] in
    if compress_file_raises os dbpath comp_dbpath
    then
      (out2 ++ (if negb silent then [PrintTraceback] else []),
       Returned (false, "Unable to compress"))
    else
      (out2 ++ (if negb silent
                then [Output ("Database backed up successfully" +:+ ": "
                              +:+ basename comp_dbpath)]
                else []),
       Returned (true, "All fine")).

Definition restore_database (os : os_env)
    (backup_path db_destination : string) (silent : bool)
  : list event * result (bool * string) :=
  let bytes_required := 1024000 * 200 in
  let db_dir := dirname db_destination in
  if negb (access_W os db_dir && isdir os db_dir
           && isfile os backup_path && access_R os backup_path
           && check_required_space os db_dir bytes_required)
  then
    let txt := "Cannot restore selected backup" +:+ ": "
               +:+ basename backup_path +:+ ", " +:+ "permission denied" in
    let '(out, mytxt) :=
      if negb silent then ([Output txt], Some txt) else ([], None) in
    (out, t ← read_local mytxt; Returned (false, t))
  else
    let out1 :=
      if negb silent
      then [Output ("Restoring backed up database" +:+ ": "
                    +:+ basename backup_path +:+ " => "
                    +:+ db_destination +:+ " ...")]
      else [] in
    let out2 := out1 ++ [UncompressFile backup_path db_destination] in
    if uncompress_file_raises os backup_path db_destination
    then
      (out2 ++ (if negb silent then [PrintTraceback] else []),
       Returned (false, "Unable to unpack"))
    else
      (out2 ++ (if negb silent
                then [Output ("Database restored successfully" +:+ ": "
                              +:+ basename backup_path)]
                else [])
            ++ [ClearCache],
       Returned (true, "All fine")).

(** The archive a call asked [compress_file] to write, if any. *)
Definition archive_written (evs : list event) : option string :=
  match List.find (fun e => match e with CompressFile _ _ _ => true
                                       | _ => false end) evs with
  | Some (CompressFile _ dst _) => Some dst
  | _ => None
  end.

Definition touches_archive (e : event) : bool :=
  match e with
  | CompressFile _ _ _ | UncompressFile _ _ => true
  | _ => false
  end.

End WithConstants.
End Backup.

(** ** [MiscMixin]: the process-wide resources lock *)

Module MiscMixin.
Import PyStr.

(** Who holds the advisory lock ([fcntl.flock]) on a file. *)
Inductive holder : Type := ThisProcess | OtherProcess.

(** The two class attributes together with the part of the operating
    system the lock methods touch: the content of each existing file and
    the advisory lock table.  An open file object is named by its path.
    Directories are not tracked: [os.makedirs] and [const_setup_perms] are
    taken to succeed. *)
Record world : Type := {
  RESOURCES_LOCK_F_REF : option string;
  RESOURCES_LOCK_F_COUNT : Z;
  files : gmap string string;
  flocks : gmap string holder;
}.

Section WithConstants.

(** [etpConst['locks']['using_resources']]. *)
Variable using_resources : string.
(** [os.getpid()]. *)
Variable getpid : Z.

Definition create_pid_file_lock (pidfile : string) (mypid : option Z)
    (w : world) : world * bool :=
  match RESOURCES_LOCK_F_REF w with
  | Some _ => (w, true)
  | None =>
      let mypid := match mypid with Some p => p | None => getpid end in
      (* open(pidfile, "w") creates or truncates the file *)
      let w1 := {| RESOURCES_LOCK_F_REF := RESOURCES_LOCK_F_REF w;
                   RESOURCES_LOCK_F_COUNT := RESOURCES_LOCK_F_COUNT w;
                   files := <[pidfile := ""]> (files w);
                   flocks := flocks w |} in
      match flocks w !! pidfile with
      | Some _ => (w1, false)
      | None =>
          ({| RESOURCES_LOCK_F_REF := Some pidfile;
              RESOURCES_LOCK_F_COUNT := RESOURCES_LOCK_F_COUNT w;
              files := <[pidfile := str_of_int mypid]> (files w1);
              flocks := <[pidfile := ThisProcess]> (flocks w) |}, true)
      end
  end.

Definition resources_create_lock (w : world) : world * bool :=
  let '(w1, acquired) := create_pid_file_lock using_resources None w in
  if acquired
  then ({| RESOURCES_LOCK_F_REF := RESOURCES_LOCK_F_REF w1;
           RESOURCES_LOCK_F_COUNT := RESOURCES_LOCK_F_COUNT w1 + 1;
           files := files w1;
           flocks := flocks w1 |}, acquired)
  else (w1, acquired).

Definition resources_remove_lock (w : world) : world :=
  let count :=
    if RESOURCES_LOCK_F_COUNT w >? 0
    then RESOURCES_LOCK_F_COUNT w - 1
    else RESOURCES_LOCK_F_COUNT w in
  if count >? 0
  then {| RESOURCES_LOCK_F_REF := RESOURCES_LOCK_F_REF w;
          RESOURCES_LOCK_F_COUNT := count;
          files := files w;
          flocks := flocks w |}
  else
    let flocks1 :=
      match RESOURCES_LOCK_F_REF w with
      | Some f_obj => delete f_obj (flocks w)
      | None => flocks w
      end in
    {| RESOURCES_LOCK_F_REF := None;
       RESOURCES_LOCK_F_COUNT := count;
       files := delete using_resources (files w);
       flocks := flocks1 |}.

(** [n] calls of [resources_create_lock] in a row; [None] as soon as one
    of them answers [False]. *)
Fixpoint acquire_all (n : nat) (w : world) : option world :=
  match n with
  | O => Some w
  | S k =>
      let '(w1, acquired) := resources_create_lock w in
      if acquired then acquire_all k w1 else None
  end.

(** [n] calls of [resources_remove_lock] in a row. *)
Fixpoint release_all (n : nat) (w : world) : world :=
  match n with
  | O => w
  | S k => release_all k (resources_remove_lock w)
  end.

Definition released (w : world) : Prop :=
  RESOURCES_LOCK_F_COUNT w = 0
  /\ RESOURCES_LOCK_F_REF w = None
  /\ files w !! using_resources = None
  /\ flocks w !! using_resources = None.

Definition held (w : world) : Prop :=
  RESOURCES_LOCK_F_COUNT w > 0
  /\ RESOURCES_LOCK_F_REF w = Some using_resources
  /\ files w !! using_resources = Some (str_of_int getpid)
  /\ flocks w !! using_resources = Some ThisProcess.

End WithConstants.
End MiscMixin.

(** ** [RepositoryMixin]: the branch migration hook runners *)

Module BranchHooks.

Import PyStr.

(** The two hook script paths of a repository's metadata. *)
Record repo_meta : Type := {
  post_branch_hop_script : string;
  post_branch_upgrade_script : string;
}.

(** Modelled from the spec: the branch migration records kept by the
    installed-packages database, which is not part of these sources.  A
    record [(repositoryId, fromBranch, toBranch, scriptMd5, postUpgradeMd5)]
    is stored under its first three components; inserting overwrites the
    record of that triple, and the post-upgrade setter changes the last
    component of an existing record only. *)
Module MigrationTable.

Abbreviation t := (gmap (string * string * string) (string * string)).

Definition isBranchMigrationAvailable (tbl : t) (repoid from to : string)
  : option (string * string) := tbl !! (repoid, from, to).

Definition insertBranchMigration (tbl : t) (repoid from to : string)
    (post_migration_md5 post_upgrade_md5 : string) : t :=
  <[(repoid, from, to) := (post_migration_md5, post_upgrade_md5)]> tbl.

Definition setBranchMigrationPostUpgradeMd5sum (tbl : t)
    (repoid from to md5 : string) : t :=
  alter (fun r => (fst r, md5)) (repoid, from, to) tbl.

(** The [from] branches recorded for [repoid] towards [to]: the keys of
    [retrieveBranchMigration(to)[repoid]]. *)
Definition from_branches (tbl : t) (to repoid : string) : list string :=
  omap (fun kv : string * string * string * (string * string) =>
          let '((r, f, b), _) := kv in
          if String.eqb r repoid && String.eqb b to then Some f else None)
       (map_to_list tbl).

End MigrationTable.
Import MigrationTable.

(** The file system and the shell as a call sees them: the checksum of a
    path that is a readable regular file, and the exit status of
    [/bin/sh] on an argument list. *)
Record env : Type := {
  script_md5 : string -> option string;
  script_exit : list string -> Z;
}.

Inductive event : Type :=
  | RunScript (args : list string) (rc : Z).

Definition md5_or_zero (e : env) (script : string) : string :=
  match script_md5 e script with
  | Some h => h
  | None => "0"
  end.

(** The loop state: the migration table, the scripts executed so far,
    [hooks_ran] and [errors]. *)
Definition loop_state : Type :=
  (MigrationTable.t * list event * gset string * bool)%type.

Section WithConstants.

(** [etpConst['systemroot']]. *)
Variable systemroot : string.

Variable e : env.

(** [SystemSettings['repositories']['available']]. *)
Variable available : gmap string repo_meta.

Definition switch_step (old_branch new_branch : string)
    (acc : loop_state) (repoid : string) : loop_state :=
  let '(tbl, evs, hooks_ran, errors) := acc in
  match available !! repoid with
  | None => acc
  | Some mydata =>
      let branch_mig_script := post_branch_hop_script mydata in
      let branch_mig_md5sum := md5_or_zero e branch_mig_script in
      let skip :=
        match isBranchMigrationAvailable tbl repoid old_branch new_branch
        with
        | Some status_md5sums => String.eqb branch_mig_md5sum
                                            (fst status_md5sums)
        | None => false
        end in
      if skip then acc
      else
        let '(evs1, errors1) :=
          if negb (String.eqb branch_mig_md5sum "0")
          then
            let args := ["/bin/sh"; branch_mig_script; repoid;
                         systemroot +:+ "/"; old_branch; new_branch] in
            let br_rc := script_exit e args in
            (evs ++ [RunScript args br_rc],
             if negb (br_rc =? 0) then true else errors)
          else (evs, errors) in
        (insertBranchMigration tbl repoid old_branch new_branch
                               branch_mig_md5sum "0",
         evs1, {[repoid]} ∪ hooks_ran, errors1)
  end.

(** [client_dbconn] is [self._installed_repository], [None] when the
    installed-packages database is not available.  The answer is the
    database afterwards, the scripts executed, and the returned pair. *)
Definition run_repositories_post_branch_switch_hooks
    (client_dbconn : option MigrationTable.t)
    (old_branch new_branch : string)
  : option MigrationTable.t * list event * (gset string * bool) :=
  match client_dbconn with
  | None => (None, [], (∅, true))
  | Some tbl =>
      let all_repos :=
        sorted (elements (dom available ∪ dom available)) in
      let '(tbl1, evs, hooks_ran, errors) :=
        List.fold_left (switch_step old_branch new_branch) all_repos
                       (tbl, [], ∅, false) in
      (Some tbl1, evs, (hooks_ran, errors))
  end.

Definition upgrade_from_step (pretend : bool) (branch repoid : string)
    (branch_upg_script branch_upg_md5sum : string)
    (repo_upgrade_data : MigrationTable.t)
    (acc : loop_state) (from_branch : string) : loop_state :=
  let '(tbl, evs, hooks_ran, errors) := acc in
  match repo_upgrade_data !! (repoid, from_branch, branch) with
  | None => acc
  | Some (post_mig_md5, post_upg_md5) =>
      if String.eqb branch_upg_md5sum post_upg_md5 then acc
      else
        let hooks_ran1 := {[repoid]} ∪ hooks_ran in
        if pretend then (tbl, evs, hooks_ran1, errors)
        else
          let args := ["/bin/sh"; branch_upg_script; repoid;
                       systemroot +:+ "/"; from_branch; branch] in
          let mig_rc := script_exit e args in
          (setBranchMigrationPostUpgradeMd5sum tbl repoid from_branch
                                               branch branch_upg_md5sum,
           evs ++ [RunScript args mig_rc], hooks_ran1,
           if negb (mig_rc =? 0) then true else errors)
  end.

Definition upgrade_step (pretend : bool) (branch : string)
    (acc : loop_state) (repoid : string) : loop_state :=
  let '(tbl, evs, hooks_ran, errors) := acc in
  match available !! repoid with
  | None => acc
  | Some mydata =>
      let branch_upg_script := post_branch_upgrade_script mydata in
      let branch_upg_md5sum := md5_or_zero e branch_upg_script in
      if String.eqb branch_upg_md5sum "0" then acc
      else
        match from_branches tbl branch repoid with
        | [] => acc
        | froms =>
            List.fold_left
              (upgrade_from_step pretend branch repoid branch_upg_script
                                 branch_upg_md5sum tbl)
              (sorted froms) acc
        end
  end.

(** [branch] is [SystemSettings['repositories']['branch']] and
    [enabled_repos] is [self._enabled_repos]. *)
Definition run_repository_post_branch_upgrade_hooks
    (client_dbconn : option MigrationTable.t)
    (branch : string) (enabled_repos : list string) (pretend : bool)
  : option MigrationTable.t * list event * (gset string * bool) :=
  match client_dbconn with
  | None => (None, [], (∅, true))
  | Some tbl =>
      let '(tbl1, evs, hooks_ran, errors) :=
        List.fold_left (upgrade_step pretend branch) enabled_repos
                       (tbl, [], ∅, false) in
      (Some tbl1, evs, (hooks_ran, errors))
  end.

(** The repository id a script was run for (its third argument). *)
Definition event_repoid (ev : event) : string :=
  match ev with
  | RunScript (_ :: _ :: repoid :: _) _ => repoid
  | RunScript _ _ => ""
  end.

Definition event_failed (ev : event) : bool :=
  match ev with RunScript _ rc => negb (rc =? 0) end.

Definition repos_run (evs : list event) : gset string :=
  list_to_set (List.map event_repoid evs).

Definition any_failed (evs : list event) : bool :=
  List.existsb event_failed evs.

End WithConstants.
End BranchHooks.

(** ** [RepositoryMixin]: rewriting the repositories configuration file *)

Module RepositoriesConf.
Import PyStr.

(** The keys of the [repodata] dictionary the writer reads. *)
Record repodata : Type := {
  repoid : string;
  description : string;
  plain_packages : list string;
  plain_database : string;
  dbcformat : string;
  service_port : string;
  ssl_service_port : string;
}.

(** [{'repoid': r}], as the remove, enable and disable callers build it. *)
Definition repodata_of_id (r : string) : repodata :=
  {| repoid := r; description := ""; plain_packages := [];
     plain_database := ""; dbcformat := ""; service_port := "";
     ssl_service_port := "" |}.

(** An entry of [repolines_data]: its counter, repository id and line. *)
Record repoline : Type := {
  cc : nat;
  rl_repoid : string;
  line : string;
}.

(** [x.split("|")[1]]; a line without a second field never reaches it. *)
Definition field1 (x : string) : string := nth 1 (split_pipe x) "".

Definition five_fields (x : string) : bool :=
  Nat.eqb (List.length (split_pipe x)) 5.

Definition single_hash (x : string) : bool :=
  startswith "#" x && negb (startswith "##" x).

(** [f.readlines()] gives the lines with their terminators; both writers
    strip each of them. *)
Definition read_content (conf : option (list string)) : list string :=
  match conf with
  | Some lines => List.map strip lines
  | None => []
  end.

(** What [tmp_f.write(line + "\n")] for every line leaves in the file. *)
Definition write_content (content : list string) : list string :=
  List.map (fun l => l +:+ LF) content.

Definition new_repository_line (d : repodata) : string :=
  "repository|" +:+ repoid d +:+ "|" +:+ description d +:+ "|"
  +:+ str_join " " (plain_packages d) +:+ "|" +:+ plain_database d
  +:+ "#" +:+ dbcformat d +:+ "#" +:+ service_port d +:+ ","
  +:+ ssl_service_port d.

(** The body of the [for x in repolines] loop: the entry recorded for the
    line [x] under the counter [n]. *)
Definition repoline_entry (d : repodata) (disable enable : bool)
    (n : nat) (x : string) : repoline :=
  let this := String.eqb (field1 x) (repoid d) in
  let l :=
    if disable && this
    then (if negb (startswith "#" x) then "#" +:+ x else x)
    else if enable && this && startswith "#" x then tail x
    else x in
  {| cc := n; rl_repoid := field1 x; line := l |}.

(** The lines kept in [repolines] after the sanity filter. *)
Definition sane_repolines (content : list string) : list string :=
  List.filter five_fields
    (List.filter
       (fun x => startswith "repository|" x
                 || (single_hash x && contains "repository|" x))
       content).

(** The new [content] computed by [__save_repository_settings].
    [repolines_data] is kept as a list in increasing counter order, which is
    the order [sorted(repolines_data.keys())] visits it in. *)
Definition saved_content (content : list string) (d : repodata)
    (remove disable enable : bool) : list string :=
  let content :=
    if negb disable && negb enable
    then
      let c1 := List.filter
                  (fun x => negb (startswith ("repository|" +:+ repoid d) x))
                  content in
      if remove
      then List.filter
             (fun x => negb (single_hash x
                             && contains ("repository|" +:+ repoid d) x))
             c1
      else c1
    else content in
  if negb remove
  then
    let repolines :=
      List.filter
        (fun x => startswith "repository|" x
                  || (single_hash x && contains "repository|" x))
        content in
    let content := List.filter (fun x => negb (str_in x repolines))
                               content in
    let repolines := List.filter five_fields repolines in
    let repolines_data :=
      imap (repoline_entry d disable enable) repolines in
    let repocount := List.length repolines in
    let repolines_data :=
      if negb disable && negb enable
      then
        List.filter
          (fun e => negb (startswith "#" (line e)
                          && contains ("repository|" +:+ repoid d)
                                      (line e)))
          repolines_data
        ++ [ {| cc := repocount; rl_repoid := repoid d;
                line := new_repository_line d |} ]
      else repolines_data in
    content ++ List.map line repolines_data
  else content.

Section WithConstants.

(** [etpConst['packagesext']]. *)
Variable packagesext : string.

(** [conf] is the file [etpConst['repositoriesconf']] ([None] when it does
    not exist) and [can_write] says whether writing the temporary file and
    renaming it succeeds.  The answer is the file afterwards and the
    returned value ([None] for the bare [return]). *)
Definition __save_repository_settings (conf : option (list string))
    (can_write : bool) (d : repodata) (remove disable enable : bool)
  : option (list string) * option bool :=
  if endswith packagesext (repoid d) then (conf, None)
  else
    let content :=
      saved_content (read_content conf) d remove disable enable in
    if can_write then (Some (write_content content), Some true)
    else (conf, Some false).

End WithConstants.

(** The new [content] computed by [__write_ordered_repositories_entries]. *)
Definition ordered_content (content : list string)
    (ordered_repository_list : list string) : list string :=
  let repolines :=
    List.filter (fun x => startswith "repository|" x && five_fields x)
                content in
  let content := List.filter (fun x => negb (str_in x repolines)) content in
  content
  ++ List.concat
       (List.map
          (fun r => List.filter (fun x => String.eqb r (field1 x)) repolines)
          ordered_repository_list).

Definition __write_ordered_repositories_entries
    (conf : option (list string)) (ordered_repository_list : list string)
  : option (list string) :=
  Some (write_content
          (ordered_content (read_content conf) ordered_repository_list)).

End RepositoriesConf.

(** ** [RepositoryMixin]: the connection cache and repository validation *)

Module RepositoryMixin.
Import PyStr PosixPath RepositoriesConf.

(** An opened database object, named by the order of its creation. *)
Definition handle : Type := nat.

(** The keys of a repository's metadata dictionary read here:
    ['__temporary__'] and ['dbpath']. *)
Record repo_settings : Type := {
  temporary : bool;
  dbpath : string;
}.

(** [SystemSettings['repositories']]. *)
Record settings : Type := {
  available : gmap string repo_settings;
  excluded : gmap string repo_settings;
  order : list string;
}.

(** The warnings the two methods hand to [self.output].  All but the
    request to update the repositories name one repository id. *)
Inductive diagnostic : Type :=
  | BadRepositoryId (repoid : string)
  | NotDownloaded (repoid : string)
  | NotAvailable (repoid : string)
  | PleaseUpdate
  | Corrupted (repoid : string).

(** The text of each warning, colours and translation left out. *)
Definition render (d : diagnostic) : string :=
  match d with
  | BadRepositoryId r => "bad repository id specified" +:+ ": " +:+ r
  | NotDownloaded r => "Repository " +:+ r +:+ " hasn't been downloaded yet."
  | NotAvailable r =>
      "Repository" +:+ " " +:+ r +:+ " " +:+ "is not available" +:+ ". "
      +:+ "Cannot validate"
  | PleaseUpdate =>
      "Please update your repositories now in order to remove this message!"
  | Corrupted r =>
      "Repository" +:+ " " +:+ r +:+ " " +:+ "is corrupted" +:+ ". "
      +:+ "Cannot validate"
  end.

(** The repository id a warning names. *)
Definition about (d : diagnostic) : option string :=
  match d with
  | BadRepositoryId r | NotDownloaded r | NotAvailable r
  | Corrupted r => Some r
  | PleaseUpdate => None
  end.

(** The attributes of the client object the methods below read and write,
    the configuration file, and the effects in the order they happen:
    [closeDB] calls, lines written to [sys.stderr], warnings handed to
    [self.output]. *)
Record client : Type := {
  SystemSettings : settings;
  repodb_cache : gmap (string * string) handle;
  memory_db_instances : gmap (string * string) handle;
  repo_error_messages_cache : gset string;
  enabled_repos : list string;
  installed_repository : option handle;
  can_run_sys_set_hooks : bool;
  repositoriesconf : option (list string);
  next_handle : handle;
  closeDB_calls : list handle;
  stderr : list string;
  output : list diagnostic;
}.

Definition with_settings (s : settings) (c : client) : client :=
  {| SystemSettings := s; repodb_cache := repodb_cache c;
     memory_db_instances := memory_db_instances c;
     repo_error_messages_cache := repo_error_messages_cache c;
     enabled_repos := enabled_repos c;
     installed_repository := installed_repository c;
     can_run_sys_set_hooks := can_run_sys_set_hooks c;
     repositoriesconf := repositoriesconf c; next_handle := next_handle c;
     closeDB_calls := closeDB_calls c; stderr := stderr c;
     output := output c |}.

Definition with_cache (m : gmap (string * string) handle) (c : client)
  : client :=
  {| SystemSettings := SystemSettings c; repodb_cache := m;
     memory_db_instances := memory_db_instances c;
     repo_error_messages_cache := repo_error_messages_cache c;
     enabled_repos := enabled_repos c;
     installed_repository := installed_repository c;
     can_run_sys_set_hooks := can_run_sys_set_hooks c;
     repositoriesconf := repositoriesconf c; next_handle := next_handle c;
     closeDB_calls := closeDB_calls c; stderr := stderr c;
     output := output c |}.

Definition with_memory (m : gmap (string * string) handle) (c : client)
  : client :=
  {| SystemSettings := SystemSettings c; repodb_cache := repodb_cache c;
     memory_db_instances := m;
     repo_error_messages_cache := repo_error_messages_cache c;
     enabled_repos := enabled_repos c;
     installed_repository := installed_repository c;
     can_run_sys_set_hooks := can_run_sys_set_hooks c;
     repositoriesconf := repositoriesconf c; next_handle := next_handle c;
     closeDB_calls := closeDB_calls c; stderr := stderr c;
     output := output c |}.

Definition with_messages_cache (s : gset string) (c : client) : client :=
  {| SystemSettings := SystemSettings c; repodb_cache := repodb_cache c;
     memory_db_instances := memory_db_instances c;
     repo_error_messages_cache := s;
     enabled_repos := enabled_repos c;
     installed_repository := installed_repository c;
     can_run_sys_set_hooks := can_run_sys_set_hooks c;
     repositoriesconf := repositoriesconf c; next_handle := next_handle c;
     closeDB_calls := closeDB_calls c; stderr := stderr c;
     output := output c |}.

Definition with_enabled (l : list string) (c : client) : client :=
  {| SystemSettings := SystemSettings c; repodb_cache := repodb_cache c;
     memory_db_instances := memory_db_instances c;
     repo_error_messages_cache := repo_error_messages_cache c;
     enabled_repos := l;
     installed_repository := installed_repository c;
     can_run_sys_set_hooks := can_run_sys_set_hooks c;
     repositoriesconf := repositoriesconf c; next_handle := next_handle c;
     closeDB_calls := closeDB_calls c; stderr := stderr c;
     output := output c |}.

Definition with_hooks_flag (b : bool) (c : client) : client :=
  {| SystemSettings := SystemSettings c; repodb_cache := repodb_cache c;
     memory_db_instances := memory_db_instances c;
     repo_error_messages_cache := repo_error_messages_cache c;
     enabled_repos := enabled_repos c;
     installed_repository := installed_repository c;
     can_run_sys_set_hooks := b;
     repositoriesconf := repositoriesconf c; next_handle := next_handle c;
     closeDB_calls := closeDB_calls c; stderr := stderr c;
     output := output c |}.

Definition with_conf (f : option (list string)) (c : client) : client :=
  {| SystemSettings := SystemSettings c; repodb_cache := repodb_cache c;
     memory_db_instances := memory_db_instances c;
     repo_error_messages_cache := repo_error_messages_cache c;
     enabled_repos := enabled_repos c;
     installed_repository := installed_repository c;
     can_run_sys_set_hooks := can_run_sys_set_hooks c;
     repositoriesconf := f; next_handle := next_handle c;
     closeDB_calls := closeDB_calls c; stderr := stderr c;
     output := output c |}.

(** Creating a database object. *)
Definition bump_handle (c : client) : client :=
  {| SystemSettings := SystemSettings c; repodb_cache := repodb_cache c;
     memory_db_instances := memory_db_instances c;
     repo_error_messages_cache := repo_error_messages_cache c;
     enabled_repos := enabled_repos c;
     installed_repository := installed_repository c;
     can_run_sys_set_hooks := can_run_sys_set_hooks c;
     repositoriesconf := repositoriesconf c;
     next_handle := S (next_handle c);
     closeDB_calls := closeDB_calls c; stderr := stderr c;
     output := output c |}.

(** Recording a call of [h.closeDB()]. *)
Definition log_closeDB (h : handle) (c : client) : client :=
  {| SystemSettings := SystemSettings c; repodb_cache := repodb_cache c;
     memory_db_instances := memory_db_instances c;
     repo_error_messages_cache := repo_error_messages_cache c;
     enabled_repos := enabled_repos c;
     installed_repository := installed_repository c;
     can_run_sys_set_hooks := can_run_sys_set_hooks c;
     repositoriesconf := repositoriesconf c; next_handle := next_handle c;
     closeDB_calls := closeDB_calls c ++ [h]; stderr := stderr c;
     output := output c |}.

Definition log_stderr (t : string) (c : client) : client :=
  {| SystemSettings := SystemSettings c; repodb_cache := repodb_cache c;
     memory_db_instances := memory_db_instances c;
     repo_error_messages_cache := repo_error_messages_cache c;
     enabled_repos := enabled_repos c;
     installed_repository := installed_repository c;
     can_run_sys_set_hooks := can_run_sys_set_hooks c;
     repositoriesconf := repositoriesconf c; next_handle := next_handle c;
     closeDB_calls := closeDB_calls c; stderr := stderr c ++ [t];
     output := output c |}.

Definition log_output (d : diagnostic) (c : client) : client :=
  {| SystemSettings := SystemSettings c; repodb_cache := repodb_cache c;
     memory_db_instances := memory_db_instances c;
     repo_error_messages_cache := repo_error_messages_cache c;
     enabled_repos := enabled_repos c;
     installed_repository := installed_repository c;
     can_run_sys_set_hooks := can_run_sys_set_hooks c;
     repositoriesconf := repositoriesconf c; next_handle := next_handle c;
     closeDB_calls := closeDB_calls c; stderr := stderr c;
     output := output c ++ [d] |}.

Section WithEnvironment.

(** [etpConst['systemroot']], [etpConst['clientdbid']],
    [etpConst['etpdatabasefile']] and [etpConst['packagesext']]. *)
Variable systemroot : string.
Variable clientdbid : string.
Variable etpdatabasefile : string.
Variable packagesext : string.

(** [os.path.isfile]. *)
Variable os_isfile : string -> bool.

(** What [dbc.listConfigProtectEntries(); dbc.validateDatabase()] raises on
    the database of a repository id, [None] when both calls pass. *)
Variable db_raises : string -> option exn.

(** Whether [closeDB] on a database object raises [OperationalError]. *)
Variable closeDB_raises : handle -> bool.

(** [SystemSettings.clear()]: the settings as they are parsed again from
    the configuration file. *)
Variable SystemSettings_clear : option (list string) -> settings -> settings.

(** Whether the configuration file can be rewritten. *)
Variable conf_writable : bool.

Definition get_repository_cache_key (repoid : string) : string * string :=
  (repoid, systemroot).

(** One round of the loop of [close_all_repositories]. *)
Definition close_item (c : client) (item : string * string) : client :=
  if decide (item ∈ dom (memory_db_instances c)) then c
  else
    match repodb_cache c !! item with
    | None => c
    | Some h =>
        let c1 := log_closeDB h (with_cache (delete item (repodb_cache c)) c)
        in
        if closeDB_raises h
        then log_stderr "!!! Cannot close Entropy repos" c1
        else c1
    end.

Definition close_all_repositories (mask_clear : bool) (c : client)
  : client :=
  let c1 :=
    List.fold_left close_item
      (sorted_by pair_leb (elements (dom (repodb_cache c)))) c in
  let c2 := with_cache ∅ c1 in
  let old_value := can_run_sys_set_hooks c2 in
  let c3 := with_hooks_flag false c2 in
  let c4 :=
    if mask_clear
    then with_settings
           (SystemSettings_clear (repositoriesconf c3) (SystemSettings c3))
           c3
    else c3 in
  with_hooks_flag old_value c4.

(** Emitting a warning about [repoid] unless one was emitted already. *)
Definition warn_once (d : diagnostic) (repoid : string) (c : client)
  : client :=
  if decide (repoid ∈ repo_error_messages_cache c) then c
  else with_messages_cache ({[repoid]} ∪ repo_error_messages_cache c)
         (log_output d c).

(** The synchronisation with the source package manager that follows a
    successful load only touches caches that are not part of [client]; it
    is left out.  [None] in the answer is Python's [None]. *)
Definition load_repository_database (repoid : string) (c : client)
  : client * result (option handle) :=
  match available (SystemSettings c) !! repoid with
  | None => (warn_once (BadRepositoryId repoid) repoid c,
             Raised RepositoryError)
  | Some data =>
      if temporary data
      then (c, Returned (memory_db_instances c
                           !! get_repository_cache_key repoid))
      else
        let dbfile := join (dbpath data) etpdatabasefile in
        if negb (os_isfile dbfile)
        then (warn_once (NotDownloaded repoid) repoid c,
              Raised RepositoryError)
        else (bump_handle c, Returned (Some (next_handle c)))
  end.

Definition open_repository (repoid : string) (c : client)
  : client * result (option handle) :=
  if String.eqb repoid clientdbid
  then (c, Returned (installed_repository c))
  else
    let key := get_repository_cache_key repoid in
    match repodb_cache c !! key with
    | Some h => (c, Returned (Some h))
    | None =>
        let '(c1, r) := load_repository_database repoid c in
        match r with
        | Raised e => (c1, Raised e)
        | Returned None => (c1, Raised AttributeError)
        | Returned (Some dbconn) =>
            (with_cache (<[key := dbconn]> (repodb_cache c1)) c1,
             Returned (Some dbconn))
        end
    end.

(** The [try] block of [validate_repositories] for one repository id. *)
Definition try_validate (repoid : string) (c : client)
  : client * result unit :=
  let '(c1, r) := open_repository repoid c in
  match r with
  | Raised e => (c1, Raised e)
  | Returned None => (c1, Raised AttributeError)
  | Returned (Some dbc) =>
      match db_raises repoid with
      | Some e => (c1, Raised e)
      | None => (with_enabled (enabled_repos c1 ++ [repoid]) c1,
                 Returned ())
      end
  end.

(** One round of the loop, handlers included; an exception no handler
    takes ends the loop. *)
Definition validate_one (quiet : bool) (repoid : string) (c : client)
  : client * result unit :=
  let '(c1, r) := try_validate repoid c in
  match r with
  | Returned _ => (c1, Returned ())
  | Raised RepositoryError =>
      if quiet then (c1, Returned ())
      else (log_output PleaseUpdate
              (log_output (NotAvailable repoid) c1), Returned ())
  | Raised OperationalError | Raised DatabaseError
  | Raised SystemDatabaseError =>
      if quiet then (c1, Returned ())
      else (log_output (Corrupted repoid) c1, Returned ())
  | Raised e => (c1, Raised e)
  end.

Fixpoint validate_loop (quiet : bool) (repoids : list string) (c : client)
  : client * result unit :=
  match repoids with
  | [] => (c, Returned ())
  | repoid :: rest =>
      let '(c1, r) := validate_one quiet repoid c in
      match r with
      | Returned _ => validate_loop quiet rest c1
      | Raised e => (c1, Raised e)
      end
  end.

(** [MirrorStatus] and the live masking validation cache, which the method
    clears first, are not part of [client]. *)
Definition validate_repositories (quiet : bool) (c : client)
  : client * result unit :=
  let c1 := with_enabled [] (with_messages_cache ∅ c) in
  let '(c2, r) :=
    validate_loop quiet (order (SystemSettings c1)) c1 in
  match r with
  | Returned _ => (close_all_repositories false c2, Returned ())
  | Raised e => (c2, Raised e)
  end.

Definition remove_repository (repoid : string) (disable : bool)
    (c : client) : client * result unit :=
  let s := SystemSettings c in
  let done := bool_decide (repoid ∈ dom (available s))
              || bool_decide (repoid ∈ dom (excluded s)) in
  let c1 := with_settings
              {| available := delete repoid (available s);
                 excluded := delete repoid (excluded s);
                 order := order s |} c in
  let c2 := with_enabled (list_remove repoid (enabled_repos c1)) c1 in
  let c3 := close_all_repositories true c2 in
  let c4 :=
    if done
    then
      let s3 := SystemSettings c3 in
      let c3a := with_settings
                   {| available := available s3; excluded := excluded s3;
                      order := list_remove repoid (order s3) |} c3 in
      let '(conf, _) :=
        if disable
        then __save_repository_settings packagesext (repositoriesconf c3a)
               conf_writable (repodata_of_id repoid) false true false
        else __save_repository_settings packagesext (repositoriesconf c3a)
               conf_writable (repodata_of_id repoid) true false false in
      let c3b := with_conf conf c3a in
      with_settings
        (SystemSettings_clear (repositoriesconf c3b) (SystemSettings c3b))
        c3b
    else c3 in
  let repo_mem_key := get_repository_cache_key repoid in
  let mem_inst := memory_db_instances c4 !! repo_mem_key in
  let c5 := with_memory (delete repo_mem_key (memory_db_instances c4)) c4 in
  let '(c6, closed) :=
    match mem_inst with
    | Some h => (log_closeDB h c5, negb (closeDB_raises h))
    | None => (c5, true)
    end in
  if closed
  then validate_repositories false (close_all_repositories true c6)
  else (c6, Raised OperationalError).

(** No database object of [memory_db_instances] sits in the cache under a
    key that is not its own. *)
Definition coherent (c : client) : Prop :=
  forall k k' h,
    repodb_cache c !! k = Some h ->
    memory_db_instances c !! k' = Some h ->
    k ∈ dom (memory_db_instances c).

End WithEnvironment.
End RepositoryMixin.

(** ** [MatchMixin]: masking and unmasking a match *)

Module Masking.
Import PyStr EntropyRepository.

Inductive which_file : Type := MaskFile | UnmaskFile.

(** The two keyword files: their lines as [readlines] gives them ([None]
    when the file does not exist), whether the file can be opened for
    reading, whether [os.access(file, os.W_OK)] holds, and whether it holds
    for the directory of the file. *)
Record keyword_file : Type := {
  lines : option (list string);
  readable : bool;
  writable : bool;
  dir_writable : bool;
}.

(** [SystemSettings['live_packagemasking']]. *)
Record live_packagemasking : Type := {
  mask_matches : gset Match;
  unmask_matches : gset Match;
}.

(** Calls into the caches, which are not modelled further. *)
Inductive effect : Type :=
  | CacherDiscard
  | ClearRepositoryCache (repoid : string)
  | SystemSettingsClear
  | ValidationCacheClear.

Record state : Type := {
  mask : keyword_file;
  unmask : keyword_file;
  live : live_packagemasking;
  effects : list effect;
}.

Definition get_file (w : which_file) (st : state) : keyword_file :=
  match w with MaskFile => mask st | UnmaskFile => unmask st end.

Definition set_file (w : which_file) (f : keyword_file) (st : state)
  : state :=
  match w with
  | MaskFile => {| mask := f; unmask := unmask st; live := live st;
                   effects := effects st |}
  | UnmaskFile => {| mask := mask st; unmask := f; live := live st;
                     effects := effects st |}
  end.

Definition set_live (l : live_packagemasking) (st : state) : state :=
  {| mask := mask st; unmask := unmask st; live := l;
     effects := effects st |}.

Definition log_effect (e : effect) (st : state) : state :=
  {| mask := mask st; unmask := unmask st; live := live st;
     effects := effects st ++ [e] |}.

Section WithEnvironment.

(** [etpConst['entropyslotprefix']]. *)
Variable entropyslotprefix : string.

(** [self.open_repository], as in [PackageAction]. *)
Variable open_repository : string -> result EntropyRepository.t.

(** [dbconn.idpackageValidator(m_id, live = live_check)]: the validated
    package id, [-1] for a masked package, and the reason code.  Its answer
    depends on the keyword files and, when [live_check] is set, on the live
    overlay. *)
Variable idpackageValidator :
  EntropyRepository.t -> state -> bool -> Z -> Z * Z.

(** [self.atom_match(line, packagesFilter = False)], [None] standing for
    the answer [(-1, 1)] of an atom that matches nothing. *)
Variable atom_match : string -> option Match.

Definition is_match_masked (m : Match) (live_check : bool) (st : state)
  : result bool :=
  dbconn ← open_repository (snd m);
  let '(idpackage, idreason) :=
    idpackageValidator dbconn st live_check (fst m) in
  if negb (idpackage =? -1) then Returned false else Returned true.

Definition match_eqb (a : option Match) (b : Match) : bool :=
  match a with
  | Some x => bool_decide (x = b)
  | None => false
  end.

(** The lines [_clear_match_generic] writes back for one file. *)
Definition cleared_lines (m : Match) (raw : list string) : list string :=
  List.filter
    (fun l =>
       let strip_line := strip l in
       negb (negb (startswith "#" strip_line || is_empty strip_line)
             && match_eqb (atom_match strip_line) m))
    raw.

(** One round of the loop of [_clear_match_generic] over the files that
    exist and can be written: [open(mask_file, "r")] raises [IOError] on a
    file that cannot be read; the rewritten file takes the place of the old
    one by [os.rename] or, failing that, by [shutil.copy2]. *)
Definition clear_one (m : Match) (w : which_file) (st : state)
  : state * result unit :=
  let f := get_file w st in
  match lines f with
  | Some raw =>
      if writable f
      then
        if readable f
        then (set_file w {| lines := Some (cleared_lines m raw);
                            readable := readable f;
                            writable := writable f;
                            dir_writable := dir_writable f |} st,
              Returned ())
        else (st, Raised IOError)
      else (st, Returned ())
  | None => (st, Returned ())
  end.

Fixpoint clear_loop (m : Match) (masking_list : list which_file)
    (st : state) : state * result unit :=
  match masking_list with
  | [] => (st, Returned ())
  | w :: rest =>
      let '(st1, r) := clear_one m w st in
      match r with
      | Returned _ => clear_loop m rest st1
      | Raised e => (st1, Raised e)
      end
  end.

Definition _clear_match_generic (m : Match) (masking_list : list which_file)
    (dry_run : bool) (st : state) : state * result unit :=
  if dry_run then (st, Returned ())
  else
    let st1 :=
      set_live {| mask_matches := mask_matches (live st) ∖ {[m]};
                  unmask_matches := unmask_matches (live st) ∖ {[m]} |} st
    in
    clear_loop m masking_list st1.

Definition clear_match_mask (m : Match) (dry_run : bool) (st : state)
  : state * result unit :=
  _clear_match_generic m [MaskFile; UnmaskFile] dry_run st.

(** [keyword] is [None] when the database gave Python's [None] for it;
    writing it then raises.  The steps that can raise come in the order of
    the code: [open(m_file, "r")] ([IOError] on a file that cannot be
    read), [open(m_file + ".tmp", "w")] ([IOError] where the directory
    cannot be written; no such file is there beforehand), the writing of
    the lines, of which the keyword is the last, and only then the move
    onto [m_file]. *)
Definition _mask_unmask_match_generic (keyword : option string)
    (m_file : which_file) (dry_run : bool) (st : state)
  : state * result bool :=
  let f := get_file m_file st in
  let isfile := match lines f with Some _ => true | None => false end in
  if negb isfile && negb (dir_writable f) then (st, Returned false)
  else if isfile && negb (writable f) then (st, Returned false)
  else
    let exist := isfile && negb dry_run in
    if dry_run then (st, Returned true)
    else if exist && negb (readable f) then (st, Raised IOError)
    else
      let content :=
        if exist
        then match lines f with
             | Some raw => List.map strip raw
             | None => []
             end
        else [] in
      if negb (dir_writable f) then (st, Raised IOError)
      else
        match keyword with
        | None => (st, Raised TypeError)
        | Some k =>
            (set_file m_file
               {| lines := Some (List.map (fun l => l +:+ LF)
                                          (content ++ [k]));
                  readable := true;
                  writable := true;
                  dir_writable := dir_writable f |} st,
             Returned true)
        end.

Definition mask_match_generic (m : Match) (keyword : option string)
    (dry_run : bool) (st : state) : state * result bool :=
  let '(st1, r) := clear_match_mask m dry_run st in
  match r with
  | Raised e => (st1, Raised e)
  | Returned _ => _mask_unmask_match_generic keyword MaskFile dry_run st1
  end.

Definition unmask_match_generic (m : Match) (keyword : option string)
    (dry_run : bool) (st : state) : state * result bool :=
  let '(st1, r) := clear_match_mask m dry_run st in
  match r with
  | Raised e => (st1, Raised e)
  | Returned _ => _mask_unmask_match_generic keyword UnmaskFile dry_run st1
  end.

(** The keyword of a match for each method. *)
Definition keyword_by_atom (m : Match) : result (option string) :=
  dbconn ← open_repository (snd m);
  Returned (retrieveAtom dbconn (fst m)).

Definition keyword_by_keyslot (m : Match) : result (option string) :=
  dbconn ← open_repository (snd m);
  '(k, s) ← unpack (retrieveKeySlot dbconn (fst m));
  Returned (Some (k +:+ entropyslotprefix +:+ s)).

Definition by_keyword (kw : Match -> result (option string))
    (generic : Match -> option string -> bool -> state
               -> state * result bool)
    (m : Match) (dry_run : bool) (st : state) : state * result bool :=
  match kw m with
  | Raised e => (st, Raised e)
  | Returned keyword => generic m keyword dry_run st
  end.

Definition mask_match_by_atom := by_keyword keyword_by_atom mask_match_generic.
Definition mask_match_by_keyslot :=
  by_keyword keyword_by_keyslot mask_match_generic.
Definition unmask_match_by_atom :=
  by_keyword keyword_by_atom unmask_match_generic.
Definition unmask_match_by_keyslot :=
  by_keyword keyword_by_keyslot unmask_match_generic.

(** [methods_reference] maps ['atom'] and ['keyslot'] to the two given
    functions; any other [method] has no entry.  The overlay is among the
    settings that survive [SystemSettings.clear()]. *)
Definition _mask_unmask_match (m : Match) (method : string)
    (by_atom by_keyslot : Match -> bool -> state -> state * result bool)
    (dry_run : bool) (st : state) : state * result bool :=
  let f :=
    if String.eqb method "atom" then Some by_atom
    else if String.eqb method "keyslot" then Some by_keyslot
    else None in
  match f with
  | None => (st, Raised AttributeError)
  | Some f =>
      let st1 := log_effect (ClearRepositoryCache (snd m))
                   (log_effect CacherDiscard st) in
      let '(st2, r) := f m dry_run st1 in
      match r with
      | Raised e => (st2, Raised e)
      | Returned done =>
          let st3 := if done && negb dry_run
                     then log_effect SystemSettingsClear st2 else st2 in
          (log_effect ValidationCacheClear st3, Returned done)
      end
  end.

Definition mask_match (m : Match) (method : string) (dry_run : bool)
    (st : state) : state * result bool :=
  match is_match_masked m false st with
  | Raised e => (st, Raised e)
  | Returned true => (st, Returned true)
  | Returned false =>
      let '(st1, r) :=
        _mask_unmask_match m method mask_match_by_atom
                           mask_match_by_keyslot dry_run st in
      match r with
      | Raised e => (st1, Raised e)
      | Returned rc =>
          let st2 :=
            if dry_run
            then set_live
                   {| mask_matches := {[m]} ∪ mask_matches (live st1);
                      unmask_matches := unmask_matches (live st1) ∖ {[m]} |}
                   st1
            else st1 in
          (st2, Returned rc)
      end
  end.

Definition unmask_match (m : Match) (method : string) (dry_run : bool)
    (st : state) : state * result bool :=
  match is_match_masked m false st with
  | Raised e => (st, Raised e)
  | Returned false => (st, Returned true)
  | Returned true =>
      let '(st1, r) :=
        _mask_unmask_match m method unmask_match_by_atom
                           unmask_match_by_keyslot dry_run st in
      match r with
      | Raised e => (st1, Raised e)
      | Returned rc =>
          let st2 :=
            if dry_run
            then set_live
                   {| mask_matches := mask_matches (live st1) ∖ {[m]};
                      unmask_matches := {[m]} ∪ unmask_matches (live st1) |}
                   st1
            else st1 in
          (st2, Returned rc)
      end
  end.

End WithEnvironment.
End Masking.

(** * Properties *)

(** ** The action of a package match *)

Module PackageActionFacts.
Import EntropyRepository PackageAction.

Lemma option_eqb_true (a b : option string) :
  option_eqb a b = true <-> a = b.
Proof.
  destruct a as [x|], b as [y|]; simpl; try (split; congruence).
  rewrite String.eqb_eq. split; congruence.
Qed.

Lemma searchKeySlot_nil (db : EntropyRepository.t) (k s : string) :
  searchKeySlot db k s = [] <->
  (forall r, In r db -> ~ (key r = k /\ slot r = s)).
Proof.
  unfold searchKeySlot. split.
  - intros H r Hin [Hk Hs].
    assert (Hf : In r (List.filter (shares k s) db)).
    { apply filter_In. split; [exact Hin|].
      unfold shares. rewrite Hk, Hs, !String.eqb_refl. reflexivity. }
    destruct (List.filter (shares k s) db); [inversion Hf | discriminate].
  - intros H. induction db as [|r db IH]; [reflexivity|].
    simpl. destruct (shares k s r) eqn:E.
    + exfalso. apply (H r); [left; reflexivity|].
      unfold shares in E. apply andb_true_iff in E as [E1 E2].
      apply String.eqb_eq in E1, E2. auto.
    + apply IH. intros r' Hr'. apply H. right. exact Hr'.
Qed.

Lemma fetch_some_of_id (db : EntropyRepository.t) (r : row) :
  In r db -> exists r', fetch db (idpackage r) = Some r'.
Proof.
  unfold fetch. induction db as [|x db IH]; [intros []|].
  intros [->|Hin]; simpl.
  - rewrite Z.eqb_refl. eauto.
  - destruct (idpackage x =? idpackage r); eauto.
Qed.

Lemma searchKeySlot_fetch (db : EntropyRepository.t) (k s : string)
    (id : Z) :
  In id (searchKeySlot db k s) -> exists r, fetch db id = Some r.
Proof.
  unfold searchKeySlot. rewrite in_map_iff. intros [r [<- Hr]].
  apply filter_In in Hr as [Hr _]. apply fetch_some_of_id. exact Hr.
Qed.

Section Facts.

Variable entropy_compare_versions :
  string * string * Z -> string * string * Z -> Z.
Variable open_repository : string -> result EntropyRepository.t.
Variable installed_repository : EntropyRepository.t.

Let action :=
  get_package_action entropy_compare_versions open_repository
                     installed_repository.

(** Whenever the candidate's repository opens and knows the candidate,
    the method returns, and what it returns is one of the four codes. *)
Lemma get_package_action_returns (m : Match) (dbconn : EntropyRepository.t)
    (k s : string) :
  open_repository (snd m) = Returned dbconn ->
  retrieveKeySlot dbconn (fst m) = Some (k, s) ->
  exists a, action m = Returned a /\ (a = 1 \/ a = 0 \/ a = 2 \/ a = -1).
Proof.
  intros Hopen Hks. unfold action, get_package_action.
  rewrite Hopen. simpl. rewrite Hks. simpl.
  destruct (searchKeySlot installed_repository k s) as [|iid rest] eqn:Hs.
  { eauto. }
  assert (Hpkg : exists p, getVersioningData dbconn (fst m) = Some p).
  { unfold retrieveKeySlot in Hks. unfold getVersioningData.
    destruct (fetch dbconn (fst m)); [eauto | discriminate]. }
  assert (Hins : exists p,
             getVersioningData installed_repository iid = Some p).
  { destruct (searchKeySlot_fetch installed_repository k s iid) as [r Hr].
    { rewrite Hs. left. reflexivity. }
    unfold getVersioningData. rewrite Hr. eauto. }
  destruct Hpkg as [p ->], Hins as [q ->]. simpl.
  destruct (entropy_compare_versions p q =? 0).
  - destruct (negb _); eauto 6.
  - destruct (entropy_compare_versions p q >? 0); eauto 6.
Qed.

(** C1.  For a candidate match whose repository opens and knows the
    candidate's key and slot: with no installed package of that key and
    slot the action is 1 (install); otherwise, comparing the candidate's
    (version, tag, revision) with those of the first installed package of
    that key and slot, the action is 0 (reinstall) when the comparator
    gives 0 and the digests are equal, 2 (upgrade) when it gives 0 and the
    digests differ, 2 when it is positive and -1 (downgrade) when it is
    negative. *)
Theorem get_package_action_classifies (m : Match)
    (dbconn : EntropyRepository.t) (k s : string) :
  open_repository (snd m) = Returned dbconn ->
  retrieveKeySlot dbconn (fst m) = Some (k, s) ->
  ((forall r, In r installed_repository -> ~ (key r = k /\ slot r = s)) ->
   action m = Returned 1)
  /\
  (forall iid rest pkg inst,
     searchKeySlot installed_repository k s = iid :: rest ->
     getVersioningData dbconn (fst m) = Some pkg ->
     getVersioningData installed_repository iid = Some inst ->
     let pkgcmp := entropy_compare_versions pkg inst in
     let same_digest :=
       retrieveDigest installed_repository iid
       = retrieveDigest dbconn (fst m) in
     (pkgcmp = 0 -> same_digest -> action m = Returned 0)
     /\ (pkgcmp = 0 -> ~ same_digest -> action m = Returned 2)
     /\ (pkgcmp > 0 -> action m = Returned 2)
     /\ (pkgcmp < 0 -> action m = Returned (-1))).
Proof.
  intros Hopen Hks. unfold action, get_package_action.
  rewrite Hopen. simpl. rewrite Hks. simpl. split.
  - intros Hnone. apply searchKeySlot_nil in Hnone. rewrite Hnone.
    reflexivity.
  - intros iid rest pkg inst Hs Hpkg Hinst.
    rewrite Hs, Hpkg. simpl. rewrite Hinst. simpl.
    set (pkgcmp := entropy_compare_versions pkg inst). repeat split.
    + intros Hc Hd. rewrite Hc. simpl.
      apply option_eqb_true in Hd. rewrite Hd. reflexivity.
    + intros Hc Hd. rewrite Hc. simpl.
      destruct (option_eqb _ _) eqn:E; [|reflexivity].
      apply option_eqb_true in E. contradiction.
    + intros Hc. destruct (pkgcmp =? 0) eqn:E0; [lia|].
      destruct (pkgcmp >? 0) eqn:E1; [reflexivity | lia].
    + intros Hc. destruct (pkgcmp =? 0) eqn:E0; [lia|].
      destruct (pkgcmp >? 0) eqn:E1; [lia | reflexivity].
Qed.

End Facts.

(** A candidate of revision 2 against an installed revision 1 of the same
    key and slot, under a comparator that looks at the revision only. *)
Definition sample_repo : EntropyRepository.t :=
  [ {| idpackage := 7; atom := "app/foo-1.0"; key := "app/foo"; slot := "0";
       version := "1.0"; versiontag := ""; revision := 2;
       digest := "aa" |} ].

Definition sample_installed : EntropyRepository.t :=
  [ {| idpackage := 3; atom := "app/foo-1.0"; key := "app/foo"; slot := "0";
       version := "1.0"; versiontag := ""; revision := 1;
       digest := "bb" |} ].

Definition by_revision (a b : string * string * Z) : Z := snd a - snd b.

Lemma get_package_action_classifies_witness :
  get_package_action by_revision (fun _ => Returned sample_repo)
                     sample_installed (7, "main") = Returned 2.
Proof.
  destruct (get_package_action_classifies by_revision
              (fun _ => Returned sample_repo) sample_installed
              (7, "main") sample_repo "app/foo" "0"
              eq_refl eq_refl) as [_ H].
  destruct (H 3 [] ("1.0", "", 2) ("1.0", "", 1) eq_refl eq_refl eq_refl)
    as (_ & _ & Hup & _).
  apply Hup. reflexivity.
Defined.

End PackageActionFacts.

(** ** The reentrant resources lock *)

Module MiscMixinFacts.
Import PyStr MiscMixin.

Definition with_count (n : Z) (w : world) : world :=
  {| RESOURCES_LOCK_F_REF := RESOURCES_LOCK_F_REF w;
     RESOURCES_LOCK_F_COUNT := n;
     files := files w;
     flocks := flocks w |}.

Section Facts.

Variable using_resources : string.
Variable getpid : Z.

Let create := resources_create_lock using_resources getpid.
Let remove := resources_remove_lock using_resources.
Let acquire := acquire_all using_resources getpid.
Let release := release_all using_resources.

(** While the file reference is set, acquiring only counts. *)
Lemma create_reentrant (w : world) (f : string) :
  RESOURCES_LOCK_F_REF w = Some f ->
  create w = (with_count (RESOURCES_LOCK_F_COUNT w + 1) w, true).
Proof.
  intros H. unfold create, resources_create_lock, create_pid_file_lock.
  rewrite H. reflexivity.
Qed.

Lemma acquire_reentrant (n : nat) (w : world) (f : string) :
  RESOURCES_LOCK_F_REF w = Some f ->
  acquire n w = Some (with_count (RESOURCES_LOCK_F_COUNT w + Z.of_nat n) w).
Proof.
  revert w. induction n as [|n IH]; intros w H.
  - simpl. destruct w; simpl in *. unfold with_count; simpl.
    rewrite Z.add_0_r. reflexivity.
  - unfold acquire in *. cbn [acquire_all].
    fold create. rewrite (create_reentrant w f H).
    rewrite IH by exact H. unfold with_count; simpl.
    do 2 f_equal. lia.
Qed.

(** The first acquisition from the released state takes the advisory lock
    and writes the process id. *)
Lemma create_first (w : world) :
  RESOURCES_LOCK_F_REF w = None ->
  flocks w !! using_resources = None ->
  create w =
  ({| RESOURCES_LOCK_F_REF := Some using_resources;
      RESOURCES_LOCK_F_COUNT := RESOURCES_LOCK_F_COUNT w + 1;
      files := <[using_resources := str_of_int getpid]>
                 (<[using_resources := ""]> (files w));
      flocks := <[using_resources := ThisProcess]> (flocks w) |}, true).
Proof.
  intros H1 H2. unfold create, resources_create_lock, create_pid_file_lock.
  rewrite H1, H2. reflexivity.
Qed.

Lemma create_contended (w : world) (h : holder) :
  RESOURCES_LOCK_F_REF w = None ->
  flocks w !! using_resources = Some h ->
  snd (create w) = false.
Proof.
  intros H1 H2. unfold create, resources_create_lock, create_pid_file_lock.
  rewrite H1, H2. reflexivity.
Qed.

(** Releasing while more than one acquisition is outstanding only counts. *)
Lemma remove_nested (w : world) :
  RESOURCES_LOCK_F_COUNT w > 1 ->
  remove w = with_count (RESOURCES_LOCK_F_COUNT w - 1) w.
Proof.
  intros H. unfold remove, resources_remove_lock.
  destruct (RESOURCES_LOCK_F_COUNT w >? 0) eqn:E1; [|lia].
  destruct (RESOURCES_LOCK_F_COUNT w - 1 >? 0) eqn:E2; [|lia].
  reflexivity.
Qed.

Lemma release_nested (n : nat) (w : world) :
  RESOURCES_LOCK_F_COUNT w > Z.of_nat n ->
  release n w = with_count (RESOURCES_LOCK_F_COUNT w - Z.of_nat n) w.
Proof.
  revert w. induction n as [|n IH]; intros w H.
  - simpl. destruct w; unfold with_count; simpl. f_equal. lia.
  - unfold release in *. cbn [release_all]. fold remove.
    rewrite remove_nested by lia. rewrite IH by (simpl; lia).
    unfold with_count; simpl. f_equal. lia.
Qed.

Lemma remove_last (w : world) :
  RESOURCES_LOCK_F_COUNT w = 1 ->
  RESOURCES_LOCK_F_REF w = Some using_resources ->
  released using_resources (remove w).
Proof.
  intros Hc Hr. unfold remove, resources_remove_lock, released.
  rewrite Hc, Hr. simpl. rewrite !lookup_delete_eq. auto.
Qed.

(** From the released state and without contention every acquisition
    succeeds. *)
Lemma acquire_uncontended (n : nat) (w : world) :
  RESOURCES_LOCK_F_REF w = None ->
  flocks w !! using_resources = None ->
  exists w1, acquire n w = Some w1.
Proof.
  intros H1 H2. destruct n as [|n]; [simpl; eauto|].
  unfold acquire. cbn [acquire_all]. fold create.
  rewrite create_first by assumption.
  erewrite (acquire_reentrant n) by reflexivity. eauto.
Qed.

(** C4.  Starting with the counter at 0 and no file reference, [n >= 1]
    successful calls of [resources_create_lock] followed by [n] calls of
    [resources_remove_lock] leave the lock released (counter 0, reference
    cleared, PID file gone, advisory lock dropped); followed by [n - 1]
    calls only, they leave it held (counter above 0, advisory lock and PID
    file in place). *)
Theorem lock_reentrancy (n : nat) (w w1 : world) :
  (1 <= n)%nat ->
  RESOURCES_LOCK_F_COUNT w = 0 ->
  RESOURCES_LOCK_F_REF w = None ->
  acquire n w = Some w1 ->
  released using_resources (release n w1)
  /\ held using_resources getpid (release (n - 1) w1).
Proof.
  intros Hn Hc Hr Hacq. destruct n as [|n]; [lia|].
  unfold acquire in Hacq. cbn [acquire_all] in Hacq. fold create in Hacq.
  destruct (flocks w !! using_resources) as [h|] eqn:Hl.
  { pose proof (create_contended w h Hr Hl) as Hf.
    destruct (create w) as [w' b]. simpl in Hf. subst b. discriminate. }
  rewrite (create_first w Hr Hl) in Hacq.
  fold acquire in Hacq.
  erewrite (acquire_reentrant n) in Hacq by reflexivity.
  injection Hacq as <-. cbn [RESOURCES_LOCK_F_COUNT]. rewrite Hc.
  replace (S n - 1)%nat with n by lia.
  set (w2 := with_count _ _).
  assert (Hw2 : release n w2 = with_count 1 w2).
  { rewrite release_nested; subst w2; unfold with_count; simpl; [|lia].
    f_equal. lia. }
  split.
  - replace (S n) with (n + 1)%nat by lia.
    assert (Happ : forall a b x, release (a + b) x = release b (release a x)).
    { induction a as [|a IH]; intros b x; [reflexivity|].
      unfold release in *. simpl. apply IH. }
    rewrite Happ, Hw2. cbn [release release_all]. fold remove.
    apply remove_last; reflexivity.
  - rewrite Hw2. unfold held, with_count, w2; simpl.
    rewrite !lookup_insert_eq. repeat split; lia.
Qed.

End Facts.

(** Three nested acquisitions by process 4242 from a fresh start. *)
Definition fresh : world :=
  {| RESOURCES_LOCK_F_REF := None; RESOURCES_LOCK_F_COUNT := 0;
     files := ∅; flocks := ∅ |}.

Definition lockfile : string := "/var/run/entropy/.using_resources".

Definition thrice : world :=
  default fresh (acquire_all lockfile 4242 3 fresh).

Lemma lock_reentrancy_witness :
  released lockfile (release_all lockfile 3 thrice)
  /\ held lockfile 4242 (release_all lockfile 2 thrice).
Proof.
  apply (lock_reentrancy lockfile 4242 3 fresh thrice).
  - lia.
  - reflexivity.
  - reflexivity.
  - vm_compute. reflexivity.
Defined.

End MiscMixinFacts.

(** ** Paths *)

Module PosixPathFacts.
Import PyStr PosixPath.

Lemma append_cons (c : ascii) (r b : string) :
  String c r +:+ b = String c (r +:+ b).
Proof. reflexivity. Qed.

Lemma append_nil_l (b : string) : EmptyString +:+ b = b.
Proof. reflexivity. Qed.

Lemma append_assoc (a b c : string) : (a +:+ b) +:+ c = a +:+ (b +:+ c).
Proof.
  induction a as [|x a IH]; [reflexivity|].
  rewrite !append_cons, IH. reflexivity.
Qed.

Lemma has_slash_append (a b : string) :
  has_slash (a +:+ b) = has_slash a || has_slash b.
Proof.
  induction a as [|x a IH]; [reflexivity|].
  rewrite append_cons. simpl. rewrite IH. apply orb_assoc.
Qed.

Lemma all_slashes_append (a b : string) :
  all_slashes (a +:+ b) = all_slashes a && all_slashes b.
Proof.
  induction a as [|x a IH]; [reflexivity|].
  rewrite append_cons. simpl. rewrite IH. apply andb_assoc.
Qed.

Lemma rsplit_no_slash (s : string) :
  has_slash s = false -> rsplit_slash s = (EmptyString, s).
Proof.
  induction s as [|c r IH]; [reflexivity|]. simpl.
  intros H. apply orb_false_iff in H as [Hc Hr].
  rewrite (IH Hr). simpl. rewrite Hc. reflexivity.
Qed.

Lemma rsplit_head_empty (s : string) :
  is_empty (fst (rsplit_slash s)) = negb (has_slash s).
Proof.
  induction s as [|c r IH]; [reflexivity|]. simpl.
  destruct (rsplit_slash r) as [h t]. simpl in IH.
  destruct (is_empty h) eqn:Eh.
  - destruct (is_slash c); simpl; [reflexivity|]. exact IH.
  - simpl. symmetry in IH. apply negb_false_iff in IH. rewrite IH.
    rewrite orb_true_r. reflexivity.
Qed.

Lemma rsplit_append (a b : string) :
  endswith_slash a = true -> has_slash b = false ->
  rsplit_slash (a +:+ b) = (a, b).
Proof.
  induction a as [|c r IH]; [discriminate|].
  intros Ha Hb. destruct r as [|c' r'].
  - simpl in Ha. rewrite append_cons, append_nil_l. simpl.
    rewrite (rsplit_no_slash b Hb). simpl. rewrite Ha. reflexivity.
  - change (endswith_slash (String c' r') = true) in Ha.
    rewrite append_cons. cbn [rsplit_slash].
    rewrite (IH Ha Hb). reflexivity.
Qed.

Lemma basename_no_slash (p : string) : has_slash (basename p) = false.
Proof.
  unfold basename. induction p as [|c r IH]; [reflexivity|].
  simpl. pose proof (rsplit_head_empty r) as Hh.
  destruct (rsplit_slash r) as [h t]. simpl in IH, Hh.
  destruct (is_empty h).
  - symmetry in Hh. apply negb_true_iff in Hh.
    destruct (is_slash c) eqn:Ec; simpl; [exact Hh|].
    rewrite Ec, Hh. reflexivity.
  - exact IH.
Qed.

Lemma rstrip_slash_cons (c : ascii) (r : string) :
  rstrip_slash (String c r) =
  if is_empty (rstrip_slash r) && is_slash c then EmptyString
  else String c (rstrip_slash r).
Proof. reflexivity. Qed.

Lemma rstrip_slash_empty (s : string) :
  is_empty (rstrip_slash s) = all_slashes s.
Proof.
  induction s as [|c r IH]; [reflexivity|]. simpl.
  rewrite IH. destruct (all_slashes r), (is_slash c); reflexivity.
Qed.

Lemma rstrip_slash_append (s : string) :
  rstrip_slash (s +:+ "/") = rstrip_slash s.
Proof.
  induction s as [|c r IH]; [reflexivity|].
  rewrite append_cons. simpl. rewrite IH. reflexivity.
Qed.

Lemma endswith_rstrip_slash (s : string) :
  endswith_slash (rstrip_slash s) = false.
Proof.
  induction s as [|c r IH]; [reflexivity|]. simpl.
  destruct (rstrip_slash r) as [|c' r'] eqn:E; simpl.
  - destruct (is_slash c) eqn:Ec; simpl; [reflexivity | exact Ec].
  - exact IH.
Qed.

Lemma rstrip_slash_id (s : string) :
  endswith_slash s = false -> rstrip_slash s = s.
Proof.
  induction s as [|c r IH]; [reflexivity|].
  destruct r as [|c' r'].
  - simpl. intros ->. reflexivity.
  - intros H. change (endswith_slash (String c' r') = false) in H.
    rewrite rstrip_slash_cons, (IH H). reflexivity.
Qed.

Lemma all_slashes_endswith (s : string) :
  all_slashes s = true -> is_empty s = false -> endswith_slash s = true.
Proof.
  induction s as [|c r IH]; [discriminate|].
  simpl. intros H _. apply andb_true_iff in H as [Hc Hr].
  destruct r as [|c' r']; [exact Hc|]. apply IH; [exact Hr | reflexivity].
Qed.

Lemma endswith_slash_append (s : string) :
  endswith_slash (s +:+ "/") = true.
Proof.
  induction s as [|c r IH]; [reflexivity|].
  rewrite append_cons. destruct r as [|c' r']; [reflexivity|].
  rewrite append_cons in *. exact IH.
Qed.

(** The directory of a path, as [dirname] computes it, is empty, made of
    slashes only, or ends in something else than a slash. *)
Lemma dirname_shape (p : string) :
  let d := dirname p in
  d = EmptyString
  \/ (is_empty d = false /\ all_slashes d = true)
  \/ (is_empty d = false /\ all_slashes d = false
      /\ endswith_slash d = false).
Proof.
  unfold dirname. set (h := fst (rsplit_slash p)).
  destruct h as [|c r] eqn:E; [left; reflexivity|].
  right. cbn [is_empty negb andb].
  destruct (all_slashes (String c r)) eqn:Ea; cbn [negb].
  - left. split; [reflexivity | exact Ea].
  - right. pose proof (rstrip_slash_empty (String c r)) as He.
    rewrite Ea in He. pose proof (endswith_rstrip_slash (String c r)) as Hw.
    repeat split; [exact He | | exact Hw].
    destruct (all_slashes (rstrip_slash (String c r))) eqn:Ea'; [|reflexivity].
    rewrite (all_slashes_endswith _ Ea' He) in Hw. discriminate.
Qed.

(** A name without slashes joined to the directory of a path lies in that
    very directory. *)
Lemma dirname_join_dirname (p name : string) :
  has_slash name = false ->
  dirname (join (dirname p) name) = dirname p.
Proof.
  intros Hn. pose proof (dirname_shape p) as Hd. cbv zeta in Hd.
  set (d := dirname p) in *.
  assert (Hs : startswith_slash name = false).
  { destruct name as [|c r]; [reflexivity|]. simpl in *.
    apply orb_false_iff in Hn as [Hc _]. exact Hc. }
  unfold join. rewrite Hs.
  destruct Hd as [Hd | [[He Ha] | (He & Ha & Hw)]].
  - rewrite Hd. cbn [is_empty orb]. rewrite append_nil_l. unfold dirname.
    rewrite (rsplit_no_slash name Hn). reflexivity.
  - rewrite He, (all_slashes_endswith d Ha He). simpl.
    unfold dirname at 1. rewrite (rsplit_append d name); auto using all_slashes_endswith.
    simpl. rewrite He, Ha. reflexivity.
  - rewrite He, Hw. simpl. rewrite <- append_assoc.
    unfold dirname at 1.
    rewrite (rsplit_append (d +:+ "/") name (endswith_slash_append d) Hn).
    simpl.
    assert (Hne : is_empty (d +:+ "/") = false).
    { destruct d; [discriminate | reflexivity]. }
    rewrite Hne, all_slashes_append, Ha. simpl.
    rewrite rstrip_slash_append. apply rstrip_slash_id. exact Hw.
Qed.

End PosixPathFacts.

(** ** Backing up and restoring a database *)

Module BackupFacts.
Import PyStr PosixPath Backup PosixPathFacts.

Lemma uint_no_slash (d : Decimal.uint) :
  has_slash (NilEmpty.string_of_uint d) = false.
Proof. induction d; simpl; auto. Qed.

Lemma str_of_int_no_slash (n : Z) : has_slash (str_of_int n) = false.
Proof.
  unfold str_of_int, NilZero.string_of_int, NilZero.string_of_uint.
  destruct (Z.to_int n) as [d|d]; destruct d; simpl;
    auto using uint_no_slash.
Qed.

Lemma get_ts_no_slash (ts : datetime) : has_slash (get_ts ts) = false.
Proof.
  unfold get_ts. rewrite !has_slash_append, !str_of_int_no_slash.
  reflexivity.
Qed.

Lemma comp_dbname_no_slash (prefix dbpath : string) (ts : datetime) :
  has_slash prefix = false ->
  has_slash (comp_dbname prefix dbpath ts) = false.
Proof.
  intros H. unfold comp_dbname.
  rewrite !has_slash_append, H, basename_no_slash, get_ts_no_slash.
  reflexivity.
Qed.

(** The preflight test of [backup_database]. *)
Definition backup_preflight (os : os_env) (dbpath : string) : bool :=
  access_W os (dirname dbpath) && isdir os (dirname dbpath)
  && isfile os dbpath && access_R os dbpath
  && check_required_space os (dirname dbpath) (1024000 * 300).

(** The preflight test of [restore_database]. *)
Definition restore_preflight (os : os_env) (backup_path dest : string)
  : bool :=
  access_W os (dirname dest) && isdir os (dirname dest)
  && isfile os backup_path && access_R os backup_path
  && check_required_space os (dirname dest) (1024000 * 200).

Lemma backup_dir_is_dirname (dbpath : string) :
  (if is_empty (dirname dbpath) then dirname dbpath else dirname dbpath)
  = dirname dbpath.
Proof. destruct (is_empty (dirname dbpath)); reflexivity. Qed.

Section Facts.

Variable dbbackupprefix : string.

(** With the messages on, a failed preflight returns [False] and the
    reason, and neither compresses nor decompresses. *)
Lemma preflight_failure_reported (os : os_env) (now : datetime)
    (dbpath : string) (backup_dir : option string) (level : Z)
    (backup_path dest : string) :
  (backup_preflight os dbpath = false ->
   exists reason,
     backup_database dbbackupprefix os now dbpath backup_dir false level
     = ([Output reason], Returned (false, reason)))
  /\
  (restore_preflight os backup_path dest = false ->
   exists reason,
     restore_database os backup_path dest false
     = ([Output reason], Returned (false, reason))).
Proof.
  split; intros H.
  - unfold backup_database. rewrite backup_dir_is_dirname.
    unfold backup_preflight in H. rewrite H. simpl. eauto.
  - unfold restore_database. unfold restore_preflight in H. rewrite H.
    simpl. eauto.
Qed.

(** With [silent] set, a failed preflight reads the message variable
    before anything was assigned to it: the call raises. *)
Lemma preflight_failure_silent (os : os_env) (now : datetime)
    (dbpath : string) (backup_dir : option string) (level : Z)
    (backup_path dest : string) :
  (backup_preflight os dbpath = false ->
   backup_database dbbackupprefix os now dbpath backup_dir true level
   = ([], Raised UnboundLocalError))
  /\
  (restore_preflight os backup_path dest = false ->
   restore_database os backup_path dest true
   = ([], Raised UnboundLocalError)).
Proof.
  split; intros H.
  - unfold backup_database. rewrite backup_dir_is_dirname.
    unfold backup_preflight in H. rewrite H. reflexivity.
  - unfold restore_database. unfold restore_preflight in H. rewrite H.
    reflexivity.
Qed.

(** C10.  [backup_database] answers the same whatever [backup_dir] it is
    given, and an archive it writes is the backup name joined to the
    directory of [dbpath]; with a backup prefix free of slashes the
    directory of the archive is the directory of [dbpath]. *)
Theorem backup_database_ignores_backup_dir (os : os_env) (now : datetime)
    (dbpath : string) (backup_dir backup_dir' : option string)
    (silent : bool) (level : Z) (dst : string) :
  archive_written
    (fst (backup_database dbbackupprefix os now dbpath backup_dir silent
                          level)) = Some dst ->
  backup_database dbbackupprefix os now dbpath backup_dir silent level
  = backup_database dbbackupprefix os now dbpath backup_dir' silent level
  /\ dst = join (dirname dbpath) (comp_dbname dbbackupprefix dbpath now)
  /\ (has_slash dbbackupprefix = false -> dirname dst = dirname dbpath).
Proof.
  intros H. split; [reflexivity|].
  assert (Hdst : dst = join (dirname dbpath)
                            (comp_dbname dbbackupprefix dbpath now)).
  { revert H. unfold backup_database. rewrite backup_dir_is_dirname.
    destruct (negb (_ && check_required_space _ _ _)).
    - destruct silent; unfold archive_written; simpl; discriminate.
    - destruct (compress_file_raises os dbpath _), silent;
        unfold archive_written; simpl; intros [= <-]; reflexivity. }
  split; [exact Hdst|].
  intros Hp. rewrite Hdst. apply dirname_join_dirname.
  apply comp_dbname_no_slash. exact Hp.
Qed.

End Facts.

(** An operating system that grants nothing. *)
Definition nothing_granted : os_env :=
  {| access_W := fun _ => false; access_R := fun _ => false;
     isdir := fun _ => false; isfile := fun _ => false;
     check_required_space := fun _ _ => false;
     compress_file_raises := fun _ _ => false;
     uncompress_file_raises := fun _ _ => false |}.

(** An operating system that grants everything. *)
Definition all_granted : os_env :=
  {| access_W := fun _ => true; access_R := fun _ => true;
     isdir := fun _ => true; isfile := fun _ => true;
     check_required_space := fun _ _ => true;
     compress_file_raises := fun _ _ => false;
     uncompress_file_raises := fun _ _ => false |}.

Definition noon : datetime :=
  {| year := 2011; month := 3; day := 9; hour := 12; minute := 0;
     second := 5 |}.

(** C9, as the code has it.  Silent calls whose preflight fails do not
    return a failure pair: both methods raise [UnboundLocalError], having
    compressed and decompressed nothing. *)
Theorem silent_preflight_failure_raises (prefix : string) (now : datetime)
    (dbpath : string) (backup_dir : option string) (level : Z)
    (backup_path dest : string) :
  backup_database prefix nothing_granted now dbpath backup_dir true level
  = ([], Raised UnboundLocalError)
  /\ restore_database nothing_granted backup_path dest true
     = ([], Raised UnboundLocalError).
Proof.
  destruct (preflight_failure_silent prefix nothing_granted now dbpath
              backup_dir level backup_path dest) as [Hb Hr].
  split; [apply Hb | apply Hr]; reflexivity.
Qed.

Lemma backup_database_ignores_backup_dir_witness :
  backup_database "entropy_backup_" all_granted noon
                  "/var/lib/entropy/client/equo.db" (Some "/tmp") true 9
  = backup_database "entropy_backup_" all_granted noon
                    "/var/lib/entropy/client/equo.db" None true 9
  /\ "/var/lib/entropy/client/entropy_backup_equo.db.201139_12h0m5s.bz2"
     = join (dirname "/var/lib/entropy/client/equo.db")
            (comp_dbname "entropy_backup_"
                         "/var/lib/entropy/client/equo.db" noon)
  /\ (has_slash "entropy_backup_" = false ->
      dirname
        "/var/lib/entropy/client/entropy_backup_equo.db.201139_12h0m5s.bz2"
      = dirname "/var/lib/entropy/client/equo.db").
Proof.
  apply (backup_database_ignores_backup_dir "entropy_backup_" all_granted
           noon "/var/lib/entropy/client/equo.db" (Some "/tmp") None true 9).
  vm_compute. reflexivity.
Defined.

End BackupFacts.

(** ** The branch migration hook runners *)

Module BranchHooksFacts.
Import PyStr BranchHooks BranchHooks.MigrationTable.

Lemma insert_sorted_perm {A} (leb : A -> A -> bool) (x : A) (xs : list A) :
  insert_sorted leb x xs ≡ₚ x :: xs.
Proof.
  induction xs as [|y ys IH]; simpl; [reflexivity|].
  destruct (leb x y); [reflexivity|].
  rewrite IH. apply Permutation_swap.
Qed.

Lemma sorted_by_perm {A} (leb : A -> A -> bool) (xs : list A) :
  sorted_by leb xs ≡ₚ xs.
Proof.
  induction xs as [|x xs IH]; simpl; [reflexivity|].
  rewrite insert_sorted_perm, IH. reflexivity.
Qed.





Section Facts.

Variable systemroot : string.
Variable e : env.
Variable available : gmap string repo_meta.

Let switch_step := switch_step systemroot e available.
Let run_switch :=
  run_repositories_post_branch_switch_hooks systemroot e available.
Let upgrade_step := upgrade_step systemroot e available.
Let upgrade_from_step := upgrade_from_step systemroot e.
Let run_upgrade :=
  run_repository_post_branch_upgrade_hooks systemroot e available.

(** *** The post-switch runner, called twice *)

Section Switch.

Variables old_branch new_branch : string.












End Switch.

(** *** What the runners return *)


(** Exactly the repositories whose script ran are reported. *)
Definition exact (acc : loop_state) : Prop :=
  let '(_, evs, hooks_ran, errors) := acc in
  hooks_ran = repos_run evs /\ errors = any_failed evs.



Section Upgrade.

Variable branch : string.








End Upgrade.


End Facts.

(** One repository without a post-switch script and without a migration
    record: the runner runs nothing and still reports the repository. *)
Definition no_scripts : env :=
  {| script_md5 := fun _ => None; script_exit := fun _ => 0 |}.

Definition only_main : gmap string repo_meta :=
  {[ "main" := {| post_branch_hop_script := "/db/main/post_branch.sh";
                  post_branch_upgrade_script := "/db/main/post_upgrade.sh" |} ]}.

Lemma post_branch_switch_reports_scriptless :
  let '(_, evs, (hooks_ran, errors)) :=
    run_repositories_post_branch_switch_hooks "" no_scripts only_main
      (Some ∅) "4" "5" in
  ~ (hooks_ran = repos_run evs /\ (errors = true <-> any_failed evs = true)).
Proof.
  assert (E : run_repositories_post_branch_switch_hooks "" no_scripts
                only_main (Some ∅) "4" "5"
              = (Some {[ ("main", "4", "5") := ("0", "0") ]}, [],
                 ({[ "main" ]}, false)))
    by (vm_compute; reflexivity).
  rewrite E. intros [H _].
  assert (Hin : "main" ∈ repos_run []).
  { rewrite <- H. apply elem_of_singleton. reflexivity. }
  apply not_elem_of_empty in Hin. exact Hin.
Qed.



(** The same repository with both scripts in place, the post-switch one
    failing. *)
Definition with_scripts : env :=
  {| script_md5 := fun p =>
       if String.eqb p "/db/main/post_branch.sh" then Some "d41d8cd9"
       else if String.eqb p "/db/main/post_upgrade.sh" then Some "9e107d9d"
       else None;
     script_exit := fun args =>
       match args with
       | _ :: script :: _ =>
           if String.eqb script "/db/main/post_branch.sh" then 1 else 0
       | _ => 0
       end |}.

Example post_branch_switch_first_call :
  run_repositories_post_branch_switch_hooks "" with_scripts only_main
    (Some ∅) "4" "5"
  = (Some {[ ("main", "4", "5") := ("d41d8cd9", "0") ]},
     [RunScript ["/bin/sh"; "/db/main/post_branch.sh"; "main"; "/"; "4"; "5"]
                1],
     ({[ "main" ]}, true)).
Proof. vm_compute. reflexivity. Qed.

Example post_branch_switch_second_call :
  run_repositories_post_branch_switch_hooks "" with_scripts only_main
    (Some {[ ("main", "4", "5") := ("d41d8cd9", "0") ]}) "4" "5"
  = (Some {[ ("main", "4", "5") := ("d41d8cd9", "0") ]}, [], (∅, false)).
Proof. vm_compute. reflexivity. Qed.

Example post_branch_upgrade_run :
  run_repository_post_branch_upgrade_hooks "" with_scripts only_main
    (Some {[ ("main", "4", "5") := ("d41d8cd9", "0") ]}) "5" ["main"] false
  = (Some {[ ("main", "4", "5") := ("d41d8cd9", "9e107d9d") ]},
     [RunScript ["/bin/sh"; "/db/main/post_upgrade.sh"; "main"; "/"; "4"; "5"]
                0],
     ({[ "main" ]}, false)).
Proof. vm_compute. reflexivity. Qed.

Example post_branch_upgrade_pretend :
  run_repository_post_branch_upgrade_hooks "" with_scripts only_main
    (Some {[ ("main", "4", "5") := ("d41d8cd9", "0") ]}) "5" ["main"] true
  = (Some {[ ("main", "4", "5") := ("d41d8cd9", "0") ]}, [],
     ({[ "main" ]}, false)).
Proof. vm_compute. reflexivity. Qed.

End BranchHooksFacts.

(** ** Masking a match that is masked already *)

Module MaskingFacts.
Import PyStr EntropyRepository Masking.

Section Facts.

Variable entropyslotprefix : string.
Variable open_repository : string -> result EntropyRepository.t.
Variable idpackageValidator :
  EntropyRepository.t -> state -> bool -> Z -> Z * Z.
Variable atom_match : string -> option Match.

Let is_masked := is_match_masked open_repository idpackageValidator.
Let mask :=
  mask_match entropyslotprefix open_repository idpackageValidator atom_match.
Let unmask :=
  unmask_match entropyslotprefix open_repository idpackageValidator
               atom_match.

(** [k] is a keyword that [mask_match] writes for package [id] of [db]:
    its atom, or its key and slot joined by the slot prefix. *)
Definition keyword_of (db : EntropyRepository.t) (id : Z) (k : string)
  : Prop :=
  retrieveAtom db id = Some k
  \/ exists key slot, retrieveKeySlot db id = Some (key, slot)
                      /\ k = key +:+ entropyslotprefix +:+ slot.

(** The keyword file has [k] as one of its lines. *)
Definition listed (k : string) (f : keyword_file) : Prop :=
  exists raw, lines f = Some raw /\ In (k +:+ LF) raw.

(** Modelled from the spec (the validator belongs to the database layer,
    which is not part of this file of the program; the spec has a keyword
    appended to the mask file mask the package, and [mask] followed by
    [isMasked] answer true): asked without the live overlay, the validator
    reports a package masked when one of the package's keywords is a line
    of the mask file. *)
Definition honours_mask_file : Prop :=
  forall db st id k,
    keyword_of db id k -> listed k (Masking.mask st) ->
    fst (idpackageValidator db st false id) = -1.

(** Which keyword function [method] selects. *)
Definition keyword_function (method : string)
  : option (Match -> result (option string)) :=
  if String.eqb method "atom"
  then Some (keyword_by_atom open_repository)
  else if String.eqb method "keyslot"
       then Some (keyword_by_keyslot entropyslotprefix open_repository)
       else None.

(** The answer of [_mask_unmask_match_generic] in a dry run. *)
Definition dry_answer (f : keyword_file) : bool :=
  match lines f with
  | Some _ => writable f
  | None => dir_writable f
  end.

Definition begun (m : Match) (st : state) : state :=
  log_effect (ClearRepositoryCache (snd m)) (log_effect CacherDiscard st).

Definition overlaid (m : Match) (st : state) : state :=
  set_live {| mask_matches := {[m]} ∪ mask_matches (live st);
              unmask_matches := unmask_matches (live st) ∖ {[m]} |} st.

Lemma get_set_file (w : which_file) (f : keyword_file) (st : state) :
  get_file w (set_file w f st) = f.
Proof. destruct w; reflexivity. Qed.

Lemma is_masked_cases (m : Match) (live_check : bool) (st : state) :
  match open_repository (snd m) with
  | Returned db =>
      is_masked m live_check st
      = Returned (fst (idpackageValidator db st live_check (fst m)) =? -1)
  | Raised e => is_masked m live_check st = Raised e
  end.
Proof.
  unfold is_masked, is_match_masked.
  destruct (open_repository (snd m)) as [db|e]; [|reflexivity].
  cbn. destruct (idpackageValidator db st live_check (fst m)) as [i r].
  cbn. destruct (i =? -1); reflexivity.
Qed.

Lemma generic_writes (keyword : option string) (w : which_file)
    (st st1 : state) :
  _mask_unmask_match_generic keyword w false st = (st1, Returned true) ->
  exists k, keyword = Some k /\ listed k (get_file w st1).
Proof.
  unfold _mask_unmask_match_generic.
  destruct (lines (get_file w st)) as [raw|],
    (writable (get_file w st)), (dir_writable (get_file w st)),
    (readable (get_file w st)), keyword as [k|];
    cbn; intros H; try discriminate H;
    injection H as <-; exists k; (split; [reflexivity|]);
    rewrite get_set_file; eexists; (split; [reflexivity|]);
    first [ left; reflexivity
          | rewrite List.map_app; apply in_or_app; right; left;
            reflexivity ].
Qed.

Lemma generic_dry (keyword : option string) (w : which_file) (st : state) :
  _mask_unmask_match_generic keyword w true st
  = (st, Returned (dry_answer (get_file w st))).
Proof.
  unfold _mask_unmask_match_generic, dry_answer.
  destruct (lines (get_file w st)), (writable (get_file w st)),
    (dir_writable (get_file w st)); reflexivity.
Qed.

Lemma keyword_by_atom_of (m : Match) (k : string) :
  keyword_by_atom open_repository m = Returned (Some k) ->
  exists db, open_repository (snd m) = Returned db
             /\ keyword_of db (fst m) k.
Proof.
  unfold keyword_by_atom.
  destruct (open_repository (snd m)) as [db|e]; cbn; [|discriminate].
  intros [= H]. exists db. split; [reflexivity|]. left. exact H.
Qed.

Lemma keyword_by_keyslot_of (m : Match) (k : string) :
  keyword_by_keyslot entropyslotprefix open_repository m
  = Returned (Some k) ->
  exists db, open_repository (snd m) = Returned db
             /\ keyword_of db (fst m) k.
Proof.
  unfold keyword_by_keyslot.
  destruct (open_repository (snd m)) as [db|e]; cbn; [|discriminate].
  destruct (retrieveKeySlot db (fst m)) as [[key slot]|] eqn:Hks; cbn;
    [|discriminate].
  intros [= <-]. exists db. split; [reflexivity|]. right. eauto.
Qed.

Lemma keyword_function_of (method : string) (m : Match)
    (kw : Match -> result (option string)) (k : string) :
  keyword_function method = Some kw -> kw m = Returned (Some k) ->
  exists db, open_repository (snd m) = Returned db
             /\ keyword_of db (fst m) k.
Proof.
  unfold keyword_function.
  destruct (String.eqb method "atom").
  - intros [= <-]. apply keyword_by_atom_of.
  - destruct (String.eqb method "keyslot"); [|discriminate].
    intros [= <-]. apply keyword_by_keyslot_of.
Qed.

(** [mask_match] on a match the check finds unmasked, step by step. *)
Lemma mask_match_unmasked (m : Match) (method : string) (dry_run : bool)
    (st : state) :
  is_masked m false st = Returned false ->
  mask m method dry_run st
  = match keyword_function method with
    | None => (st, Raised AttributeError)
    | Some kw =>
        match kw m with
        | Raised e => (begun m st, Raised e)
        | Returned keyword =>
            let '(st2, r) :=
              mask_match_generic atom_match m keyword dry_run (begun m st) in
            match r with
            | Raised e => (st2, Raised e)
            | Returned done =>
                let st3 := if done && negb dry_run
                           then log_effect SystemSettingsClear st2
                           else st2 in
                let st4 := log_effect ValidationCacheClear st3 in
                (if dry_run then overlaid m st4 else st4, Returned done)
            end
        end
    end.
Proof.
  intros Hm. unfold mask, mask_match. fold is_masked. rewrite Hm.
  unfold _mask_unmask_match, keyword_function.
  fold (begun m st).
  destruct (String.eqb method "atom").
  - unfold mask_match_by_atom, by_keyword.
    destruct (keyword_by_atom open_repository m) as [keyword|e];
      [|reflexivity].
    destruct (mask_match_generic atom_match m keyword dry_run (begun m st))
      as [st2 [done|e]]; reflexivity.
  - destruct (String.eqb method "keyslot"); [|reflexivity].
    unfold mask_match_by_keyslot, by_keyword.
    destruct (keyword_by_keyslot entropyslotprefix open_repository m)
      as [keyword|e]; [|reflexivity].
    destruct (mask_match_generic atom_match m keyword dry_run (begun m st))
      as [st2 [done|e]]; reflexivity.
Qed.

(** A [mask_match] that went past the check and returned [True] outside a
    dry run has left a keyword of the match as a line of the mask file. *)
Lemma mask_match_writes (m : Match) (method : string) (st st1 : state) :
  is_masked m false st = Returned false ->
  mask m method false st = (st1, Returned true) ->
  exists db k, open_repository (snd m) = Returned db
               /\ keyword_of db (fst m) k
               /\ listed k (Masking.mask st1).
Proof.
  intros Hm H. rewrite (mask_match_unmasked m method false st Hm) in H.
  destruct (keyword_function method) as [kw|] eqn:Hkw; [|discriminate H].
  destruct (kw m) as [keyword|e] eqn:Hk; [|discriminate H].
  unfold mask_match_generic in H.
  destruct (clear_match_mask atom_match m false (begun m st))
    as [st0 [[]|e]]; [|discriminate H].
  destruct (_mask_unmask_match_generic keyword MaskFile false st0)
    as [st2 [done|e]] eqn:Hg; [|discriminate H].
  injection H as <- ->.
  apply generic_writes in Hg as (k & -> & Hl).
  destruct (keyword_function_of method m kw k Hkw Hk) as (db & Ho & Hof).
  exists db, k. split; [exact Ho|]. split; [exact Hof|]. exact Hl.
Qed.

(** A dry run of [mask_match] that goes past the check leaves the keyword
    files alone and puts the match into the overlay. *)
Lemma mask_match_dry (m : Match) (method : string) (st st1 : state)
    (rc : bool) :
  is_masked m false st = Returned false ->
  mask m method true st = (st1, Returned rc) ->
  rc = dry_answer (Masking.mask st)
  /\ st1 = overlaid m (log_effect ValidationCacheClear (begun m st))
  /\ exists kw keyword, keyword_function method = Some kw
                        /\ kw m = Returned keyword.
Proof.
  intros Hm H. rewrite (mask_match_unmasked m method true st Hm) in H.
  destruct (keyword_function method) as [kw|] eqn:Hkw; [|discriminate H].
  destruct (kw m) as [keyword|e] eqn:Hk; [|discriminate H].
  unfold mask_match_generic, clear_match_mask, _clear_match_generic in H.
  rewrite generic_dry in H. cbn in H. rewrite andb_false_r in H.
  injection H as <- <-.
  split; [reflexivity|]. split; [reflexivity|]. eauto.
Qed.

(** C8, amended.  [mask_match] on a match that the check without the live
    overlay finds masked returns [True] and changes neither the keyword
    files nor the overlay (nor anything else), and so does [unmask_match]
    on a match that check finds unmasked.  Two calls of [mask_match] in a
    row: a first call that returned [True] outside a dry run has written a
    keyword of the match into the mask file, so that, with a validator that
    honours the mask file, the second call is such a no-op, whatever its
    method and mode; after a first dry run that returned [True] a second
    dry run returns [True] again and leaves both keyword files and the
    overlay as they are. *)
Theorem mask_match_noop (m : Match) (method : string) (dry_run : bool)
    (st : state) :
  (is_masked m false st = Returned true ->
   mask m method dry_run st = (st, Returned true))
  /\
  (is_masked m false st = Returned false ->
   unmask m method dry_run st = (st, Returned true))
  /\
  (honours_mask_file ->
   forall st1, mask m method false st = (st1, Returned true) ->
     is_masked m false st1 = Returned true
     /\ forall method' dry_run',
          mask m method' dry_run' st1 = (st1, Returned true))
  /\
  (forall st1, mask m method true st = (st1, Returned true) ->
     exists st2, mask m method true st1 = (st2, Returned true)
                 /\ Masking.mask st2 = Masking.mask st1
                 /\ Masking.unmask st2 = Masking.unmask st1
                 /\ live st2 = live st1).
Proof.
  assert (H1 : forall st' me d, is_masked m false st' = Returned true ->
                 mask m me d st' = (st', Returned true)).
  { intros st' me d H. unfold mask, mask_match. fold is_masked.
    rewrite H. reflexivity. }
  split; [apply H1|]. split.
  { intros H. unfold unmask, unmask_match. fold is_masked.
    rewrite H. reflexivity. }
  split.
  - intros Hhon st1 Hfirst.
    assert (Hnow : is_masked m false st1 = Returned true).
    { pose proof (is_masked_cases m false st) as Hc.
      destruct (open_repository (snd m)) as [db0|e] eqn:Ho.
      2:{ unfold mask, mask_match in Hfirst. fold is_masked in Hfirst.
          rewrite Hc in Hfirst. discriminate Hfirst. }
      destruct (fst (idpackageValidator db0 st false (fst m)) =? -1) eqn:E.
      - rewrite (H1 st method false Hc) in Hfirst.
        injection Hfirst as <-. exact Hc.
      - destruct (mask_match_writes m method st st1 Hc Hfirst)
          as (db & k & Hdb & Hof & Hl).
        pose proof (is_masked_cases m false st1) as Hc1.
        rewrite Hdb in Hc1. rewrite Hc1.
        rewrite (Hhon db st1 (fst m) k Hof Hl). reflexivity. }
    split; [exact Hnow|]. intros method' dry_run'. apply H1. exact Hnow.
  - intros st1 Hfirst.
    pose proof (is_masked_cases m false st) as Hc.
    pose proof (is_masked_cases m false st1) as Hc1.
    destruct (open_repository (snd m)) as [db0|e] eqn:Ho.
    2:{ unfold mask, mask_match in Hfirst. fold is_masked in Hfirst.
        rewrite Hc in Hfirst. discriminate Hfirst. }
    destruct (fst (idpackageValidator db0 st false (fst m)) =? -1) eqn:E.
    { rewrite (H1 st method true Hc) in Hfirst. injection Hfirst as <-.
      exists st. rewrite (H1 st method true Hc). auto. }
    destruct (mask_match_dry m method st st1 true Hc Hfirst)
      as (Hrc & Hst1 & kw & keyword & Hkw & Hk).
    destruct (fst (idpackageValidator db0 st1 false (fst m)) =? -1) eqn:E1.
    { exists st1. rewrite (H1 st1 method true Hc1). auto. }
    rewrite (mask_match_unmasked m method true st1 Hc1), Hkw, Hk.
    unfold mask_match_generic, clear_match_mask, _clear_match_generic.
    rewrite generic_dry. subst st1. cbn. rewrite andb_false_r, <- Hrc.
    eexists. split; [reflexivity|].
    cbn. split; [reflexivity|]. split; [reflexivity|].
    f_equal.
    + rewrite (assoc_L (∪)), (idemp_L (∪)). reflexivity.
    + apply set_eq. intros x. rewrite !elem_of_difference. tauto.
Qed.

End Facts.

(** A database with one package, and a validator that finds a package
    masked when its atom or its key and slot make a line of the mask file
    or, with the live check on, when the match is in the overlay. *)
Definition masking_repo : EntropyRepository.t :=
  [ {| idpackage := 7; atom := "app/foo-1.0"; key := "app/foo"; slot := "0";
       version := "1.0"; versiontag := ""; revision := 0;
       digest := "aa" |} ].

Definition sample_open (repoid : string) : result EntropyRepository.t :=
  Returned masking_repo.

Definition file_lines (f : keyword_file) : list string :=
  match lines f with Some l => l | None => [] end.

Definition sample_validator (db : EntropyRepository.t) (st : state)
    (live_check : bool) (id : Z) : Z * Z :=
  let raw := file_lines (mask st) in
  let by_atom :=
    match retrieveAtom db id with
    | Some a => str_in (a +:+ LF) raw
    | None => false
    end in
  let by_keyslot :=
    match retrieveKeySlot db id with
    | Some (k, s) => str_in ((k +:+ ":" +:+ s) +:+ LF) raw
    | None => false
    end in
  let overlaid :=
    live_check
    && bool_decide ((id, "main") ∈ mask_matches (live st)) in
  if by_atom || by_keyslot || overlaid then (-1, 1) else (id, 0).

Definition sample_atom_match (a : string) : option Match :=
  if String.eqb a "app/foo-1.0" then Some (7, "main") else None.

(** Neither keyword file exists and their directory cannot be written. *)
Definition read_only : state :=
  {| mask := {| lines := None; readable := false; writable := false;
                dir_writable := false |};
     unmask := {| lines := None; readable := false; writable := false;
                  dir_writable := false |};
     live := {| mask_matches := ∅; unmask_matches := ∅ |};
     effects := [] |}.

(** Both keyword files exist, are empty and can be read and written. *)
Definition writable_files : state :=
  {| mask := {| lines := Some []; readable := true; writable := true;
                dir_writable := true |};
     unmask := {| lines := Some []; readable := true; writable := true;
                  dir_writable := true |};
     live := {| mask_matches := ∅; unmask_matches := ∅ |};
     effects := [] |}.

Definition sample_mask :=
  mask_match ":" sample_open sample_validator sample_atom_match.

Lemma sample_validator_honours :
  honours_mask_file ":" sample_validator.
Proof.
  intros db st id k Hof (raw & Hl & Hin).
  assert (Hs : str_in (k +:+ LF) raw = true).
  { unfold str_in. apply existsb_exists. exists (k +:+ LF).
    split; [exact Hin | apply String.eqb_refl]. }
  unfold sample_validator, file_lines. rewrite Hl.
  destruct Hof as [Ha | (key & slot & Hks & ->)].
  - rewrite Ha, Hs. reflexivity.
  - rewrite Hks, Hs, orb_true_r. reflexivity.
Qed.

(** Where the mask file cannot be written the first call fails, and the
    second call in a row fails again: it is neither a no-op nor a
    success. *)
Example mask_match_read_only_twice :
  let '(st1, r1) := sample_mask (7, "main") "atom" false read_only in
  let '(st2, r2) := sample_mask (7, "main") "atom" false st1 in
  r1 = Returned false /\ r2 = Returned false
  /\ effects st2 = effects st1 ++ [CacherDiscard;
                                   ClearRepositoryCache "main";
                                   ValidationCacheClear].
Proof. vm_compute. repeat split; reflexivity. Qed.

Lemma mask_match_twice_counterexample :
  let st1 := fst (sample_mask (7, "main") "atom" false read_only) in
  sample_mask (7, "main") "atom" false st1 <> (st1, Returned true).
Proof. vm_compute. intros H. discriminate H. Qed.

Example mask_match_writes_keyword :
  mask (fst (sample_mask (7, "main") "atom" false writable_files))
  = {| lines := Some ["app/foo-1.0" +:+ LF]; readable := true;
       writable := true; dir_writable := true |}
  /\ snd (sample_mask (7, "main") "atom" false writable_files)
     = Returned true.
Proof. vm_compute. split; reflexivity. Qed.

(** The mask file exists and can be written, its directory cannot: the
    temporary file cannot be created. *)
Example mask_match_directory_read_only :
  let st := {| mask := {| lines := Some []; readable := true;
                          writable := true; dir_writable := false |};
               unmask := unmask writable_files;
               live := live writable_files; effects := [] |} in
  snd (sample_mask (7, "main") "atom" false st) = Raised IOError
  /\ mask (fst (sample_mask (7, "main") "atom" false st)) = mask st.
Proof. vm_compute. split; reflexivity. Qed.

(** A dry run only fills the overlay, which the check leaves aside: the
    second dry run goes past the check again, and again discards the
    caches. *)
Example mask_match_dry_run_twice :
  let '(st1, r1) := sample_mask (7, "main") "atom" true writable_files in
  let '(st2, r2) := sample_mask (7, "main") "atom" true st1 in
  r1 = Returned true /\ r2 = Returned true
  /\ mask st2 = mask writable_files /\ live st2 = live st1
  /\ effects st2 = effects st1 ++ [CacherDiscard;
                                   ClearRepositoryCache "main";
                                   ValidationCacheClear].
Proof. vm_compute. repeat split; reflexivity. Qed.

Definition sample_unmask :=
  unmask_match ":" sample_open sample_validator sample_atom_match.

Lemma mask_match_noop_witness :
  (let st1 := fst (sample_mask (7, "main") "atom" false writable_files) in
   sample_mask (7, "main") "atom" false st1 = (st1, Returned true)
   /\ sample_mask (7, "main") "keyslot" true st1 = (st1, Returned true))
  /\
  sample_unmask (7, "main") "atom" false writable_files
  = (writable_files, Returned true)
  /\
  (let st1 := fst (sample_mask (7, "main") "atom" true writable_files) in
   exists st2,
     sample_mask (7, "main") "atom" true st1 = (st2, Returned true)
     /\ mask st2 = mask st1 /\ unmask st2 = unmask st1
     /\ live st2 = live st1).
Proof.
  split; [split|split].
  - destruct (mask_match_noop ":" sample_open sample_validator
                sample_atom_match (7, "main") "atom" false
                (fst (sample_mask (7, "main") "atom" false writable_files)))
      as (H & _).
    apply H. vm_compute. reflexivity.
  - destruct (mask_match_noop ":" sample_open sample_validator
                sample_atom_match (7, "main") "atom" false writable_files)
      as (_ & _ & H & _).
    destruct (H sample_validator_honours
                (fst (sample_mask (7, "main") "atom" false writable_files)))
      as [_ H'].
    + vm_compute. reflexivity.
    + exact (H' "keyslot" true).
  - destruct (mask_match_noop ":" sample_open sample_validator
                sample_atom_match (7, "main") "atom" false writable_files)
      as (_ & H & _).
    apply H. vm_compute. reflexivity.
  - destruct (mask_match_noop ":" sample_open sample_validator
                sample_atom_match (7, "main") "atom" true writable_files)
      as (_ & _ & _ & H).
    apply H. vm_compute. reflexivity.
Defined.

End MaskingFacts.

(** ** Rewriting the repositories configuration file *)

Module RepositoriesConfFacts.
Import PyStr RepositoriesConf.

(** A line the reordering writer takes for a repository line. *)
Definition is_repoline (x : string) : bool :=
  startswith "repository|" x && five_fields x.

(** A line the saving writer takes out of [content]: it starts with
    ["repository|"], or is a single-[#] comment that mentions it. *)
Definition repo_like (x : string) : bool :=
  startswith "repository|" x
  || (single_hash x && contains "repository|" x).

Lemma str_in_In (x : string) (xs : list string) :
  str_in x xs = true <-> In x xs.
Proof.
  unfold str_in. rewrite existsb_exists. split.
  - intros [y [Hy E]]. apply String.eqb_eq in E. subst. exact Hy.
  - intros H. exists x. split; [exact H | apply String.eqb_refl].
Qed.

Lemma str_in_filter (P : string -> bool) (content : list string)
    (x : string) :
  In x content -> str_in x (List.filter P content) = P x.
Proof.
  intros Hin. destruct (P x) eqn:E.
  - apply str_in_In. apply filter_In. auto.
  - destruct (str_in x (List.filter P content)) eqn:E'; [|reflexivity].
    apply str_in_In in E'. apply filter_In in E' as [_ E']. congruence.
Qed.

Lemma filter_not_in_filter (P : string -> bool) (content : list string) :
  List.filter (fun x => negb (str_in x (List.filter P content))) content
  = List.filter (fun x => negb (P x)) content.
Proof.
  apply List.filter_ext_in. intros x Hx.
  rewrite (str_in_filter P content x Hx). reflexivity.
Qed.

Lemma filter_absorb {A} (Q R : A -> bool) (l : list A) :
  (forall x, Q x = true -> R x = true) ->
  List.filter Q (List.filter R l) = List.filter Q l.
Proof.
  intros H. induction l as [|x l IH]; [reflexivity|]. simpl.
  destruct (R x) eqn:ER; simpl.
  - rewrite IH. reflexivity.
  - destruct (Q x) eqn:EQ; [|exact IH].
    rewrite (H x EQ) in ER. discriminate.
Qed.

Lemma filter_twice {A} (Q R : A -> bool) (l : list A) :
  List.filter Q (List.filter R l) = List.filter (fun x => R x && Q x) l.
Proof.
  induction l as [|x l IH]; [reflexivity|]. simpl.
  destruct (R x); simpl; [|exact IH].
  destruct (Q x); [f_equal|]; exact IH.
Qed.

Lemma startswith_append (p q x : string) :
  startswith (p +:+ q) x = true -> startswith p x = true.
Proof.
  unfold startswith. revert x. induction p as [|a p IH]; intros x.
  - destruct x; reflexivity.
  - change (String a p +:+ q) with (String a (p +:+ q)).
    destruct x as [|b x]; [discriminate|]. simpl.
    destruct (ascii_dec a b); [apply IH | discriminate].
Qed.

Lemma contains_append (p q x : string) :
  contains (p +:+ q) x = true -> contains p x = true.
Proof.
  induction x as [|b x IH]; cbn [contains].
  - rewrite !orb_false_r. apply startswith_append.
  - intros H. apply orb_true_iff in H as [H|H]; apply orb_true_iff.
    + left. exact (startswith_append p q _ H).
    + right. apply IH. exact H.
Qed.

(** What the loop over [repolines] can make of a line. *)
Definition rewritten_from (x l : string) : Prop :=
  l = x \/ l = "#" +:+ x \/ l = tail x.

Lemma repoline_entry_line (d : repodata) (disable enable : bool) (n : nat)
    (x : string) :
  rewritten_from x (line (repoline_entry d disable enable n x)).
Proof.
  unfold repoline_entry, rewritten_from. simpl.
  destruct (disable && _).
  - destruct (negb _); auto.
  - destruct (enable && _ && _); auto.
Qed.

Lemma imap_entries (d : repodata) (disable enable : bool)
    (xs : list string) (e : repoline) :
  e ∈ imap (repoline_entry d disable enable) xs ->
  exists x, In x xs /\ rewritten_from x (line e).
Proof.
  intros H. apply elem_of_lookup_imap in H as (i & x & -> & Hl).
  exists x. split.
  - apply list_elem_of_In. eapply list_elem_of_lookup_2. exact Hl.
  - apply repoline_entry_line.
Qed.

Section Facts.

Variable packagesext : string.

(** The content kept by the saving writer when it does not remove. *)
Lemma saved_content_keeps (content : list string) (d : repodata)
    (disable enable : bool) :
  exists rest,
    saved_content content d false disable enable
    = List.filter (fun x => negb (repo_like x)) content ++ rest
    /\ Forall (fun l => l = new_repository_line d
                        \/ exists x, In x content /\ five_fields x = true
                                     /\ repo_like x = true
                                     /\ rewritten_from x l) rest.
Proof.
  unfold saved_content. cbn [negb].
  set (content0 :=
         if negb disable && negb enable
         then List.filter
                (fun x => negb (startswith ("repository|" +:+ repoid d) x))
                content
         else content).
  assert (Hsub : forall x, In x content0 -> In x content).
  { intros x. unfold content0. destruct (negb disable && negb enable);
      [|auto]. intros H. apply filter_In in H as [H _]. exact H. }
  assert (Hkeep : List.filter (fun x => negb (repo_like x)) content0
                  = List.filter (fun x => negb (repo_like x)) content).
  { unfold content0. destruct (negb disable && negb enable); [|reflexivity].
    apply filter_absorb. intros x Hx.
    apply negb_true_iff in Hx. apply negb_true_iff.
    unfold repo_like in Hx. apply orb_false_iff in Hx as [Hx _].
    destruct (startswith ("repository|" +:+ repoid d) x) eqn:E;
      [|reflexivity].
    apply startswith_append in E. congruence. }
  change (fun x => startswith "repository|" x
                   || single_hash x && contains "repository|" x)
    with repo_like.
  rewrite (filter_not_in_filter repo_like content0), Hkeep.
  eexists. split; [reflexivity|].
  assert (Hentries :
            forall e, e ∈ imap (repoline_entry d disable enable)
                            (List.filter five_fields
                               (List.filter repo_like content0)) ->
                      exists x, In x content /\ five_fields x = true
                                /\ repo_like x = true
                                /\ rewritten_from x (line e)).
  { intros e He. apply imap_entries in He as [x [Hx Hr]].
    apply filter_In in Hx as [Hx H5]. apply filter_In in Hx as [Hx Hl].
    exists x. auto. }
  apply List.Forall_forall. intros l Hl. apply in_map_iff in Hl as [e [<- He]].
  destruct (negb disable && negb enable).
  - apply in_app_iff in He as [He|[<-|[]]]; [|left; reflexivity].
    apply filter_In in He as [He _]. right. apply Hentries.
    apply list_elem_of_In. exact He.
  - right. apply Hentries. apply list_elem_of_In. exact He.
Qed.

(** The content kept by the saving writer when it removes. *)
Lemma saved_content_remove (content : list string) (d : repodata)
    (disable enable : bool) :
  exists keep,
    saved_content content d true disable enable = List.filter keep content
    /\ forall x, keep x = false ->
         startswith ("repository|" +:+ repoid d) x = true
         \/ (single_hash x = true
             /\ contains ("repository|" +:+ repoid d) x = true).
Proof.
  unfold saved_content. cbn [negb].
  destruct (negb disable && negb enable).
  - exists (fun x =>
              negb (startswith ("repository|" +:+ repoid d) x)
              && negb (single_hash x
                       && contains ("repository|" +:+ repoid d) x)).
    split.
    + apply filter_twice.
    + intros x H. apply andb_false_iff in H as [H|H];
        apply negb_false_iff in H; [left; exact H|].
      right. apply andb_true_iff in H. exact H.
  - exists (fun _ => true). split; [|discriminate].
    induction content as [|x l IH]; [reflexivity|]. simpl. congruence.
Qed.

(** The content kept by the reordering writer. *)
Lemma ordered_content_keeps (content order : list string) :
  exists moved,
    ordered_content content order
    = List.filter (fun x => negb (is_repoline x)) content ++ moved
    /\ Forall (fun x => In x content /\ is_repoline x = true) moved.
Proof.
  unfold ordered_content.
  change (fun x => startswith "repository|" x && five_fields x)
    with is_repoline.
  rewrite (filter_not_in_filter is_repoline content).
  eexists. split; [reflexivity|].
  apply List.Forall_forall. intros x Hx. apply in_concat in Hx as [l [Hl Hx]].
  apply in_map_iff in Hl as [r [<- _]].
  apply filter_In in Hx as [Hx _]. apply filter_In in Hx. exact Hx.
Qed.

(** C3, amended.  Both writers strip every line they read.  The
    reordering writer moves only lines that start with ["repository|"] and
    have exactly five fields, and writes every other line back in place.
    The saving writer, when it adds, enables or disables, writes back in
    place every line that neither starts with ["repository|"] nor is a
    single-[#] comment mentioning it, and every other line it writes is the
    new repository line or comes from a line with exactly five fields;
    when it removes, it only drops lines that start with
    ["repository|<id>"] or are single-[#] comments mentioning it. *)
Theorem conf_rewrite_passthrough (conf : option (list string))
    (d : repodata) (disable enable : bool) (order : list string) :
  let content := read_content conf in
  (exists moved,
     __write_ordered_repositories_entries conf order
     = Some (write_content
               (List.filter (fun x => negb (is_repoline x)) content
                ++ moved))
     /\ Forall (fun x => In x content /\ is_repoline x = true) moved)
  /\
  (endswith packagesext (repoid d) = false ->
   exists rest,
     __save_repository_settings packagesext conf true d false disable enable
     = (Some (write_content
                (List.filter (fun x => negb (repo_like x)) content
                 ++ rest)), Some true)
     /\ Forall (fun l => l = new_repository_line d
                         \/ exists x, In x content /\ five_fields x = true
                                      /\ repo_like x = true
                                      /\ rewritten_from x l) rest)
  /\
  (endswith packagesext (repoid d) = false ->
   exists keep,
     __save_repository_settings packagesext conf true d true disable enable
     = (Some (write_content (List.filter keep content)), Some true)
     /\ forall x, keep x = false ->
          startswith ("repository|" +:+ repoid d) x = true
          \/ (single_hash x = true
              /\ contains ("repository|" +:+ repoid d) x = true)).
Proof.
  intros content. repeat split.
  - destruct (ordered_content_keeps content order) as [moved [E H]].
    exists moved. split; [|exact H].
    unfold __write_ordered_repositories_entries. fold content.
    rewrite E. reflexivity.
  - intros Hext.
    destruct (saved_content_keeps content d disable enable) as [rest [E H]].
    exists rest. split; [|exact H].
    unfold __save_repository_settings. rewrite Hext. fold content.
    rewrite E. reflexivity.
  - intros Hext.
    destruct (saved_content_remove content d disable enable)
      as [keep [E H]].
    exists keep. split; [|exact H].
    unfold __save_repository_settings. rewrite Hext. fold content.
    rewrite E. reflexivity.
Qed.

End Facts.

(** A configuration file with a comment, a repository line of three
    fields only, and a proper repository line. *)
Definition sample_conf : option (list string) :=
  Some [ "# Entropy repositories" +:+ LF;
         "repository|broken|no mirrors" +:+ LF;
         "repository|main|Main|http://a http://b|http://a/db#bz2#80,443"
           +:+ LF ].

(** Disabling [main] loses the malformed repository line. *)
Lemma conf_rewrite_counterexample :
  fst (__save_repository_settings ".tbz2" sample_conf true
         (repodata_of_id "main") false true false)
  = Some [ "# Entropy repositories" +:+ LF;
           "#repository|main|Main|http://a http://b|http://a/db#bz2#80,443"
             +:+ LF ]
  /\ five_fields "repository|broken|no mirrors" = false
  /\ ~ In ("repository|broken|no mirrors" +:+ LF)
          (default []
             (fst (__save_repository_settings ".tbz2" sample_conf true
                     (repodata_of_id "main") false true false))).
Proof.
  vm_compute. repeat split. intros [H|[H|[]]]; discriminate H.
Qed.

(** Reordering keeps it where it is. *)
Example conf_reorder_keeps_malformed :
  __write_ordered_repositories_entries sample_conf ["main"]
  = Some [ "# Entropy repositories" +:+ LF;
           "repository|broken|no mirrors" +:+ LF;
           "repository|main|Main|http://a http://b|http://a/db#bz2#80,443"
             +:+ LF ].
Proof. vm_compute. reflexivity. Qed.

Lemma conf_rewrite_passthrough_witness :
  exists rest,
    __save_repository_settings ".tbz2" sample_conf true
      (repodata_of_id "main") false false true
    = (Some (write_content
               (List.filter (fun x => negb (repo_like x))
                            (read_content sample_conf) ++ rest)),
       Some true).
Proof.
  destruct (conf_rewrite_passthrough ".tbz2" sample_conf
              (repodata_of_id "main") false true ["main"]) as (_ & H & _).
  destruct (H eq_refl) as [rest [E _]]. exists rest. exact E.
Defined.

End RepositoriesConfFacts.

(** ** The connection cache and repository validation *)

Module RepositoryMixinFacts.
Import PyStr PosixPath RepositoriesConf RepositoryMixin.
Import BranchHooksFacts.

Section Facts.

Variable systemroot : string.
Variable clientdbid : string.
Variable etpdatabasefile : string.
Variable packagesext : string.
Variable os_isfile : string -> bool.
Variable db_raises : string -> option exn.
Variable closeDB_raises : handle -> bool.
Variable SystemSettings_clear : option (list string) -> settings -> settings.
Variable conf_writable : bool.

Let key := get_repository_cache_key systemroot.
Let close_item := close_item closeDB_raises.
Let close_all := close_all_repositories closeDB_raises SystemSettings_clear.
Let load := load_repository_database systemroot etpdatabasefile os_isfile.
Let open := open_repository systemroot clientdbid etpdatabasefile os_isfile.
Let try_validate :=
  try_validate systemroot clientdbid etpdatabasefile os_isfile db_raises.
Let validate_one :=
  validate_one systemroot clientdbid etpdatabasefile os_isfile db_raises.
Let validate_loop :=
  validate_loop systemroot clientdbid etpdatabasefile os_isfile db_raises.
Let validate :=
  validate_repositories systemroot clientdbid etpdatabasefile os_isfile
    db_raises closeDB_raises SystemSettings_clear.
Let remove :=
  remove_repository systemroot clientdbid etpdatabasefile packagesext
    os_isfile db_raises closeDB_raises SystemSettings_clear conf_writable.

(** *** Closing all repositories *)

(** What a round of the closing loop leaves alone. *)
Definition closing_frame (c c' : client) : Prop :=
  SystemSettings c' = SystemSettings c
  /\ memory_db_instances c' = memory_db_instances c
  /\ repo_error_messages_cache c' = repo_error_messages_cache c
  /\ enabled_repos c' = enabled_repos c
  /\ installed_repository c' = installed_repository c
  /\ can_run_sys_set_hooks c' = can_run_sys_set_hooks c
  /\ repositoriesconf c' = repositoriesconf c
  /\ next_handle c' = next_handle c
  /\ output c' = output c.

Lemma closing_frame_refl (c : client) : closing_frame c c.
Proof. unfold closing_frame. tauto. Qed.

Lemma closing_frame_trans (a b c : client) :
  closing_frame a b -> closing_frame b c -> closing_frame a c.
Proof.
  unfold closing_frame. intros H1 H2.
  destruct H1 as (?&?&?&?&?&?&?&?&?), H2 as (?&?&?&?&?&?&?&?&?).
  repeat split; congruence.
Qed.

Lemma close_item_frame (c : client) (item : string * string) :
  closing_frame c (close_item c item).
Proof.
  unfold close_item, RepositoryMixin.close_item.
  destruct (decide _); [apply closing_frame_refl|].
  destruct (repodb_cache c !! item); [|apply closing_frame_refl].
  destruct (closeDB_raises h); unfold closing_frame; simpl; tauto.
Qed.

(** A round either skips the item or pops it and calls [closeDB] on it. *)
Lemma close_item_cases (c : client) (item : string * string) :
  (repodb_cache (close_item c item) = repodb_cache c
   /\ closeDB_calls (close_item c item) = closeDB_calls c
   /\ ((item ∈ dom (memory_db_instances c))
       \/ (repodb_cache c !! item = None)))
  \/
  (exists h, repodb_cache c !! item = Some h
     /\ (item ∉ dom (memory_db_instances c))
     /\ repodb_cache (close_item c item) = delete item (repodb_cache c)
     /\ closeDB_calls (close_item c item) = closeDB_calls c ++ [h]).
Proof.
  unfold close_item, RepositoryMixin.close_item.
  destruct (decide (item ∈ dom (memory_db_instances c))) as [Hin|Hnin].
  { left. auto. }
  destruct (repodb_cache c !! item) as [h|] eqn:Hl.
  - right. exists h. destruct (closeDB_raises h); simpl; auto.
  - left. auto.
Qed.

Lemma close_fold_frame (l : list (string * string)) (c : client) :
  closing_frame c (List.fold_left close_item l c).
Proof.
  revert c. induction l as [|k l IH]; intros c; simpl.
  - apply closing_frame_refl.
  - eapply closing_frame_trans; [apply close_item_frame | apply IH].
Qed.

(** The [closeDB] calls of the closing loop: those made before, and one
    for every visited key outside [memory_db_instances] that has a cached
    database object. *)
Lemma close_fold_calls (l : list (string * string)) (c : client)
    (h : handle) :
  h ∈ closeDB_calls (List.fold_left close_item l c) <->
  (h ∈ closeDB_calls c)
  \/ (exists k, k ∈ l /\ (k ∉ dom (memory_db_instances c))
                /\ repodb_cache c !! k = Some h).
Proof.
  revert c. induction l as [|k l IH]; intros c; simpl.
  - split; [auto|]. intros [H|(k & Hk & _)]; [exact H | inversion Hk].
  - rewrite IH.
    pose proof (close_item_frame c k) as (_ & Hmem & _).
    rewrite Hmem.
    destruct (close_item_cases c k)
      as [(Hc & Hcalls & Hwhy) | (h' & Hl & Hnin & Hc & Hcalls)];
      rewrite Hc, Hcalls.
    + split.
      * intros [H|(k' & Hk' & Hn & Hl)]; [auto|].
        right. exists k'. split; [right|]; auto.
      * intros [H|(k' & Hk' & Hn & Hl)]; [auto|].
        apply elem_of_cons in Hk' as [->|Hk'].
        -- destruct Hwhy as [Hw|Hw]; [contradiction | congruence].
        -- right. exists k'. auto.
    + rewrite elem_of_app, list_elem_of_singleton. split.
      * intros [[H| ->]|(k' & Hk' & Hn & Hl')]; [auto| |].
        -- right. exists k. split; [left|]; auto.
        -- right. exists k'. split; [right; exact Hk'|].
           split; [exact Hn|].
           destruct (decide (k = k')) as [->|Hne].
           ++ rewrite lookup_delete_eq in Hl'. discriminate.
           ++ rewrite lookup_delete_ne in Hl' by exact Hne. exact Hl'.
      * intros [H|(k' & Hk' & Hn & Hl')]; [auto|].
        destruct (decide (k = k')) as [<-|Hne].
        -- left. right. congruence.
        -- apply elem_of_cons in Hk' as [->|Hk']; [contradiction|].
           right. exists k'. rewrite lookup_delete_ne by exact Hne. auto.
Qed.

Lemma close_all_memory (mask_clear : bool) (c : client) :
  memory_db_instances (close_all mask_clear c) = memory_db_instances c.
Proof.
  unfold close_all, close_all_repositories. fold close_item.
  destruct mask_clear; simpl;
    apply (close_fold_frame _ c).
Qed.

Lemma close_all_cache (mask_clear : bool) (c : client) :
  repodb_cache (close_all mask_clear c) = ∅.
Proof.
  unfold close_all, close_all_repositories. destruct mask_clear; reflexivity.
Qed.

Lemma close_all_frame (mask_clear : bool) (c : client) :
  enabled_repos (close_all mask_clear c) = enabled_repos c
  /\ output (close_all mask_clear c) = output c
  /\ installed_repository (close_all mask_clear c) = installed_repository c
  /\ repositoriesconf (close_all mask_clear c) = repositoriesconf c
  /\ can_run_sys_set_hooks (close_all mask_clear c)
     = can_run_sys_set_hooks c.
Proof.
  unfold close_all, close_all_repositories. fold close_item.
  pose proof (close_fold_frame
                (sorted_by pair_leb (elements (dom (repodb_cache c)))) c)
    as (_ & _ & _ & He & Hi & Hh & Hc & _ & Ho).
  destruct mask_clear; simpl; auto.
Qed.

Lemma close_all_settings (c : client) :
  SystemSettings (close_all false c) = SystemSettings c.
Proof.
  unfold close_all, close_all_repositories. fold close_item. simpl.
  apply (close_fold_frame _ c).
Qed.

Lemma close_all_calls (mask_clear : bool) (c : client) (h : handle) :
  h ∈ closeDB_calls (close_all mask_clear c) <->
  (h ∈ closeDB_calls c)
  \/ (exists k, (k ∉ dom (memory_db_instances c))
                /\ repodb_cache c !! k = Some h).
Proof.
  unfold close_all, close_all_repositories. fold close_item.
  assert (E : forall c', closeDB_calls
                 (with_hooks_flag (can_run_sys_set_hooks (with_cache ∅ c'))
                    (if mask_clear
                     then with_settings
                            (SystemSettings_clear
                               (repositoriesconf
                                  (with_hooks_flag false (with_cache ∅ c')))
                               (SystemSettings
                                  (with_hooks_flag false (with_cache ∅ c'))))
                            (with_hooks_flag false (with_cache ∅ c'))
                     else with_hooks_flag false (with_cache ∅ c')))
               = closeDB_calls c').
  { intros c'. destruct mask_clear; reflexivity. }
  cbv zeta. rewrite E, close_fold_calls. split.
  - intros [H|(k & _ & Hn & Hl)]; [auto|]. right. eauto.
  - intros [H|(k & Hn & Hl)]; [auto|]. right. exists k.
    split; [|auto]. rewrite sorted_by_perm. apply elem_of_elements.
    apply elem_of_dom. eauto.
Qed.

(** *** Opening and validating *)

(** What opening and validating a repository leave alone. *)
Definition loading_frame (c c' : client) : Prop :=
  SystemSettings c' = SystemSettings c
  /\ memory_db_instances c' = memory_db_instances c
  /\ installed_repository c' = installed_repository c
  /\ can_run_sys_set_hooks c' = can_run_sys_set_hooks c
  /\ repositoriesconf c' = repositoriesconf c
  /\ closeDB_calls c' = closeDB_calls c
  /\ stderr c' = stderr c.

Lemma loading_frame_refl (c : client) : loading_frame c c.
Proof. unfold loading_frame. tauto. Qed.

Lemma loading_frame_trans (a b c : client) :
  loading_frame a b -> loading_frame b c -> loading_frame a c.
Proof.
  unfold loading_frame. intros H1 H2.
  destruct H1 as (?&?&?&?&?&?&?), H2 as (?&?&?&?&?&?&?).
  repeat split; congruence.
Qed.

(** How opening a repository ends: with a database object, with
    [RepositoryError] after the given warning, or with Python's [None]
    where an object is expected. *)
Inductive opening : Type :=
  | Opens
  | Missing (d : diagnostic)
  | Broken.

Definition load_outcome (c : client) (r : string) : opening :=
  match available (SystemSettings c) !! r with
  | None => Missing (BadRepositoryId r)
  | Some data =>
      if temporary data
      then match memory_db_instances c !! key r with
           | Some _ => Opens
           | None => Broken
           end
      else if os_isfile (join (dbpath data) etpdatabasefile) then Opens
           else Missing (NotDownloaded r)
  end.

Definition open_outcome (c : client) (r : string) : opening :=
  if String.eqb r clientdbid
  then match installed_repository c with
       | Some _ => Opens
       | None => Broken
       end
  else match repodb_cache c !! key r with
       | Some _ => Opens
       | None => load_outcome c r
       end.

Lemma warn_once_frame (d : diagnostic) (r : string) (c : client) :
  loading_frame c (warn_once d r c)
  /\ repodb_cache (warn_once d r c) = repodb_cache c
  /\ enabled_repos (warn_once d r c) = enabled_repos c
  /\ (output (warn_once d r c) = output c
      \/ output (warn_once d r c) = output c ++ [d]).
Proof.
  unfold warn_once. destruct (decide _); unfold loading_frame; simpl; tauto.
Qed.

(** The three ways [load_repository_database] ends. *)
Lemma load_spec (r : string) (c : client) :
  match load_outcome c r with
  | Opens =>
      exists c1 h, load r c = (c1, Returned (Some h))
        /\ loading_frame c c1 /\ repodb_cache c1 = repodb_cache c
        /\ enabled_repos c1 = enabled_repos c /\ output c1 = output c
  | Missing d =>
      exists c1, load r c = (c1, Raised RepositoryError)
        /\ loading_frame c c1 /\ repodb_cache c1 = repodb_cache c
        /\ enabled_repos c1 = enabled_repos c
        /\ (output c1 = output c \/ output c1 = output c ++ [d])
  | Broken => load r c = (c, Returned None)
  end.
Proof.
  unfold load_outcome, load, load_repository_database.
  destruct (available (SystemSettings c) !! r) as [data|].
  - destruct (temporary data).
    + fold key. destruct (memory_db_instances c !! key r) as [h|].
      * exists c, h. repeat split; reflexivity.
      * reflexivity.
    + destruct (os_isfile _); simpl.
      * exists (bump_handle c), (next_handle c).
        unfold loading_frame. simpl. repeat split; reflexivity.
      * eexists. split; [reflexivity|].
        apply (warn_once_frame (NotDownloaded r) r c).
  - eexists. split; [reflexivity|].
    apply (warn_once_frame (BadRepositoryId r) r c).
Qed.

(** The three ways [open_repository] ends. *)
Lemma open_spec (r : string) (c : client) :
  match open_outcome c r with
  | Opens =>
      exists c1 h, open r c = (c1, Returned (Some h))
        /\ loading_frame c c1
        /\ (forall k, is_Some (repodb_cache c1 !! k) <->
                      is_Some (repodb_cache c !! k)
                      \/ (k = key r /\ String.eqb r clientdbid = false))
        /\ enabled_repos c1 = enabled_repos c /\ output c1 = output c
  | Missing d =>
      exists c1, open r c = (c1, Raised RepositoryError)
        /\ loading_frame c c1 /\ repodb_cache c1 = repodb_cache c
        /\ enabled_repos c1 = enabled_repos c
        /\ (output c1 = output c \/ output c1 = output c ++ [d])
  | Broken =>
      exists c1, (open r c = (c1, Raised AttributeError)
                  \/ open r c = (c1, Returned None))
  end.
Proof.
  unfold open_outcome, open, open_repository. fold key. fold load.
  destruct (String.eqb r clientdbid) eqn:Ecl.
  { destruct (installed_repository c) as [h|].
    - exists c, h. repeat split; try reflexivity; try tauto.
      intros [H|[_ H]]; [exact H | discriminate].
    - exists c. right. reflexivity. }
  destruct (repodb_cache c !! key r) as [h|] eqn:Hc.
  { exists c, h. repeat split; try reflexivity; try tauto.
    intros [H|[-> _]]; [exact H | eauto]. }
  pose proof (load_spec r c) as Hl.
  destruct (load_outcome c r) as [|d|].
  - destruct Hl as (c1 & h & -> & Hf & Hcache & Hen & Hout).
    eexists _, h. split; [reflexivity|]. simpl.
    repeat split; try apply Hf; auto.
    + rewrite Hcache. intros H.
      destruct (decide (k = key r)) as [->|Hne]; [right; auto|].
      rewrite lookup_insert_ne in H by congruence. left. exact H.
    + rewrite Hcache. intros [H|[-> _]].
      * destruct (decide (key r = k)) as [<-|Hne].
        -- rewrite lookup_insert_eq. eauto.
        -- rewrite lookup_insert_ne by exact Hne. exact H.
      * rewrite lookup_insert_eq. eauto.
  - destruct Hl as (c1 & -> & Hrest). exists c1. split; [reflexivity|].
    exact Hrest.
  - rewrite Hl. exists c. left. reflexivity.
Qed.

(** The exceptions the two handlers of [validate_repositories] take. *)
Definition caught (e : exn) : bool :=
  match e with
  | RepositoryError | OperationalError | DatabaseError
  | SystemDatabaseError => true
  | _ => false
  end.

(** The repository opens and its database passes both checks. *)
Definition valid (c : client) (r : string) : bool :=
  match open_outcome c r, db_raises r with
  | Opens, None => true
  | _, _ => false
  end.

(** Validating the repository ends with an exception no handler takes. *)
Definition fatal (c : client) (r : string) : bool :=
  match open_outcome c r, db_raises r with
  | Broken, _ => true
  | Opens, Some e => negb (caught e)
  | _, _ => false
  end.

(** The warnings of [load_repository_database]. *)
Definition load_warning (d : diagnostic) : bool :=
  match d with
  | BadRepositoryId _ | NotDownloaded _ => true
  | _ => false
  end.

(** The warning names a repository. *)
Definition named (d : diagnostic) : bool :=
  match about d with
  | Some _ => true
  | None => false
  end.

Definition is_please_update (d : diagnostic) : bool :=
  match d with
  | PleaseUpdate => true
  | _ => false
  end.

Definition is_not_available (d : diagnostic) : bool :=
  match d with
  | NotAvailable _ => true
  | _ => false
  end.

Lemma load_outcome_missing (c : client) (r : string) (d : diagnostic) :
  load_outcome c r = Missing d -> about d = Some r /\ load_warning d = true.
Proof.
  unfold load_outcome.
  destruct (available (SystemSettings c) !! r) as [data|].
  - destruct (temporary data).
    + destruct (memory_db_instances c !! key r); discriminate.
    + destruct (os_isfile _); [discriminate|]. intros [= <-]. auto.
  - intros [= <-]. auto.
Qed.

Lemma open_outcome_missing (c : client) (r : string) (d : diagnostic) :
  open_outcome c r = Missing d -> about d = Some r /\ load_warning d = true.
Proof.
  unfold open_outcome. destruct (String.eqb r clientdbid).
  - destruct (installed_repository c); discriminate.
  - destruct (repodb_cache c !! key r); [discriminate|].
    apply load_outcome_missing.
Qed.

Ltac distinct_diagnostics :=
  repeat (apply NoDup_cons; split;
          [ rewrite ?elem_of_cons, ?elem_of_nil;
            intros H; repeat destruct H as [H|H];
            solve [ discriminate H | exact H
                  | match goal with
                    | W : load_warning _ = true |- _ =>
                        rewrite H in W; discriminate W
                    end ]
          | ]);
  apply NoDup_nil; exact I.

(** One round of the validation loop that ends without an exception. *)
Definition validated (quiet : bool) (r : string) (c c1 : client) : Prop :=
  loading_frame c c1
  /\ (forall k, is_Some (repodb_cache c1 !! k) <->
                is_Some (repodb_cache c !! k)
                \/ (k = key r /\ String.eqb r clientdbid = false
                    /\ open_outcome c r = Opens))
  /\ exists ds,
       output c1 = output c ++ ds
       /\ Forall (fun d => forall r', about d = Some r' -> r' = r) ds
       /\ NoDup (List.filter named ds)
       /\ List.length (List.filter is_please_update ds)
          = List.length (List.filter is_not_available ds)
       /\ (quiet = true -> Forall (fun d => load_warning d = true) ds)
       /\ if valid c r
          then enabled_repos c1 = enabled_repos c ++ [r] /\ ds = []
          else enabled_repos c1 = enabled_repos c
               /\ (quiet = false ->
                   NotAvailable r ∈ ds \/ Corrupted r ∈ ds).

Ltac solve_elem :=
  solve [ repeat first [ apply list_elem_of_here
                       | apply list_elem_of_further ] ].

Ltac about_round :=
  repeat (constructor;
          [ let r' := fresh "r" in
            let H := fresh "H" in
            intros r' H; cbn [about] in H; congruence
          | ]);
  apply Forall_nil; exact I.

Ltac finish_round :=
  try match goal with
      | W : load_warning ?d = true |- _ =>
          is_var d; destruct d; try discriminate W
      end;
  cbn [about] in *;
  repeat split; auto using Forall_nil;
  try discriminate;
  try (cbn [List.filter named about]; distinct_diagnostics);
  try about_round;
  try (intros _);
  try (repeat constructor; assumption || reflexivity);
  try (first [ left; solve_elem | right; solve_elem ]).

Lemma validate_one_spec (quiet : bool) (r : string) (c : client) :
  match validate_one quiet r c with
  | (c1, Returned _) => fatal c r = false /\ validated quiet r c c1
  | (_, Raised _) => fatal c r = true
  end.
Proof.
  unfold validate_one, RepositoryMixin.validate_one. fold try_validate.
  unfold try_validate, RepositoryMixin.try_validate. fold open.
  unfold fatal, validated, valid.
  pose proof (open_spec r c) as Ho.
  pose proof (open_outcome_missing c r) as Hm.
  destruct (open_outcome c r) as [|d|].
  - destruct Ho as (c1 & h & -> & Hf & Hcache & Hen & Hout).
    assert (Hcache' :
              forall k, is_Some (repodb_cache c1 !! k) <->
                        is_Some (repodb_cache c !! k)
                        \/ (k = key r /\ String.eqb r clientdbid = false
                            /\ Opens = Opens)).
    { intros k. rewrite Hcache. tauto. }
    destruct (db_raises r) as [e|].
    + destruct e, quiet; simpl; try reflexivity;
        (split; [reflexivity|]);
        (split; [exact Hf|]); (split; [exact Hcache'|]).
      * exists []. rewrite app_nil_r. finish_round.
      * exists [NotAvailable r; PleaseUpdate]. rewrite Hout.
        rewrite <- app_assoc. finish_round.
      * exists []. rewrite app_nil_r. finish_round.
      * exists [Corrupted r]. rewrite Hout. finish_round.
      * exists []. rewrite app_nil_r. finish_round.
      * exists [Corrupted r]. rewrite Hout. finish_round.
      * exists []. rewrite app_nil_r. finish_round.
      * exists [Corrupted r]. rewrite Hout. finish_round.
    + simpl. split; [reflexivity|]. split; [exact Hf|].
      split; [exact Hcache'|]. exists []. rewrite app_nil_r, Hout, Hen.
      finish_round.
  - destruct Ho as (c1 & -> & Hf & Hcache & Hen & Hout).
    destruct (Hm d eq_refl) as [Habout Hwarn].
    assert (Hcache' :
              forall k, is_Some (repodb_cache c1 !! k) <->
                        is_Some (repodb_cache c !! k)
                        \/ (k = key r /\ String.eqb r clientdbid = false
                            /\ Missing d = Opens)).
    { intros k. rewrite Hcache. split; [auto|].
      intros [H|(_ & _ & H)]; [exact H | discriminate]. }
    destruct quiet; simpl;
      (split; [destruct (db_raises r); reflexivity|]);
      (split; [exact Hf|]); (split; [exact Hcache'|]);
      destruct Hout as [Hout|Hout].
    + exists []. rewrite app_nil_r. finish_round.
    + exists [d]. finish_round.
    + exists [NotAvailable r; PleaseUpdate]. rewrite Hout.
      rewrite <- app_assoc. finish_round.
    + exists [d; NotAvailable r; PleaseUpdate]. rewrite Hout.
      rewrite <- !app_assoc. finish_round.
  - destruct Ho as [c1 [-> | ->]]; reflexivity.
Qed.

(** The state [ci] of the validation loop that started in [c0]: the
    cache has only grown, and only by repositories that load. *)
Definition tracks (c0 ci : client) : Prop :=
  loading_frame c0 ci
  /\ (forall k, is_Some (repodb_cache c0 !! k) ->
                is_Some (repodb_cache ci !! k))
  /\ (forall r, is_Some (repodb_cache ci !! key r) ->
                is_Some (repodb_cache c0 !! key r)
                \/ load_outcome c0 r = Opens).

Lemma tracks_refl (c : client) : tracks c c.
Proof.
  split; [apply loading_frame_refl|]. split; auto.
Qed.

Lemma load_outcome_frame (c c' : client) (r : string) :
  loading_frame c c' -> load_outcome c' r = load_outcome c r.
Proof.
  intros (Hs & Hm & _). unfold load_outcome. rewrite Hs, Hm. reflexivity.
Qed.

Lemma open_outcome_tracks (c0 ci : client) (r : string) :
  tracks c0 ci -> open_outcome ci r = open_outcome c0 r.
Proof.
  intros (Hf & Hmono & Hnew). unfold open_outcome.
  destruct (String.eqb r clientdbid).
  { destruct Hf as (_ & _ & -> & _). reflexivity. }
  rewrite (load_outcome_frame c0 ci r Hf).
  destruct (repodb_cache ci !! key r) as [h|] eqn:Hi.
  - destruct (Hnew r) as [[h0 ->] | ->]; [eauto | reflexivity |].
    destruct (repodb_cache c0 !! key r); reflexivity.
  - destruct (repodb_cache c0 !! key r) as [h0|] eqn:H0; [|reflexivity].
    destruct (Hmono (key r)) as [h1 H1]; [eauto|]. congruence.
Qed.

Lemma valid_tracks (c0 ci : client) (r : string) :
  tracks c0 ci -> valid ci r = valid c0 r.
Proof.
  intros H. unfold valid. rewrite (open_outcome_tracks c0 ci r H).
  reflexivity.
Qed.

Lemma fatal_tracks (c0 ci : client) (r : string) :
  tracks c0 ci -> fatal ci r = fatal c0 r.
Proof.
  intros H. unfold fatal. rewrite (open_outcome_tracks c0 ci r H).
  reflexivity.
Qed.

Lemma validated_tracks (quiet : bool) (r : string) (c0 ci c1 : client) :
  tracks c0 ci -> validated quiet r ci c1 -> tracks c0 c1.
Proof.
  intros Ht (Hf & Hcache & _).
  pose proof Ht as (Hf0 & Hmono & Hnew).
  split; [eapply loading_frame_trans; eassumption|]. split.
  - intros k Hk. apply Hcache. left. apply Hmono. exact Hk.
  - intros r' Hr'. apply Hcache in Hr' as [Hr'|(Hk & Hcl & Ho)].
    + apply Hnew. exact Hr'.
    + assert (r' = r) by (unfold key, get_repository_cache_key in Hk;
                          congruence).
      subst r'. rewrite (open_outcome_tracks c0 ci r Ht) in Ho.
      unfold open_outcome in Ho. rewrite Hcl in Ho.
      destruct (repodb_cache c0 !! key r); [left; eauto | right; exact Ho].
Qed.

(** What a run of the validation loop over [l] has done when it ends
    without an exception. *)
Definition looped (quiet : bool) (l : list string) (c0 ci c' : client)
  : Prop :=
  tracks c0 c'
  /\ enabled_repos c' = enabled_repos ci ++ List.filter (valid c0) l
  /\ exists new,
       output c' = output ci ++ new
       /\ Forall (fun d => forall r, about d = Some r -> r ∈ l) new
       /\ NoDup (List.filter named new)
       /\ List.length (List.filter is_please_update new)
          = List.length (List.filter is_not_available new)
       /\ (quiet = true -> Forall (fun d => load_warning d = true) new)
       /\ (quiet = false ->
           forall r, r ∈ l -> valid c0 r = false ->
             NotAvailable r ∈ new \/ Corrupted r ∈ new).

Lemma validate_loop_spec (quiet : bool) (l : list string)
    (c0 ci : client) :
  tracks c0 ci -> NoDup l ->
  match validate_loop quiet l ci with
  | (c', Returned _) =>
      (forall r, r ∈ l -> fatal c0 r = false) /\ looped quiet l c0 ci c'
  | (_, Raised _) => exists r, r ∈ l /\ fatal c0 r = true
  end.
Proof.
  revert ci. induction l as [|r l IH]; intros ci Ht Hnd.
  - simpl. split; [intros r Hr; inversion Hr|].
    split; [exact Ht|]. split; [simpl; rewrite app_nil_r; reflexivity|].
    exists []. rewrite app_nil_r.
    repeat split; auto using Forall_nil.
    + apply NoDup_nil. exact I.
    + intros _ r Hr. inversion Hr.
  - apply NoDup_cons in Hnd as [Hr Hnd].
    unfold validate_loop. cbn [RepositoryMixin.validate_loop].
    fold validate_one. fold validate_loop.
    pose proof (validate_one_spec quiet r ci) as H1.
    destruct (validate_one quiet r ci) as [c1 [[]|e]].
    2:{ exists r. split; [left|]. rewrite <- (fatal_tracks c0 ci r Ht).
        exact H1. }
    destruct H1 as [Hfat Hval].
    pose proof (validated_tracks quiet r c0 ci c1 Ht Hval) as Ht1.
    specialize (IH c1 Ht1 Hnd).
    destruct (validate_loop quiet l c1) as [c' [[]|e]].
    2:{ destruct IH as (r' & Hr' & Hf). exists r'. split; [right|]; auto. }
    destruct IH as [Hfat' (Ht' & Hen' & new' & Hout' & Hab' & Hnd' & Hcnt'
                            & Hq' & Hnq')].
    destruct Hval as (_ & _ & ds & Hout & Hab & Hndd & Hcnt & Hq & Hv).
    rewrite (valid_tracks c0 ci r Ht) in Hv.
    split.
    { intros r' Hr'. apply elem_of_cons in Hr' as [->|Hr']; [|auto].
      rewrite <- (fatal_tracks c0 ci r Ht). exact Hfat. }
    split; [exact Ht'|]. split.
    { rewrite Hen'. cbn [List.filter].
      destruct (valid c0 r); destruct Hv as [-> _];
        [rewrite <- app_assoc|]; reflexivity. }
    exists (ds ++ new'). split; [rewrite Hout', Hout, app_assoc; reflexivity|].
    split.
    { apply Forall_app. split.
      - eapply Forall_impl; [exact Hab|]. intros d Hd r0 Hr0.
        rewrite (Hd r0 Hr0). left.
      - eapply Forall_impl; [exact Hab'|]. intros d Hd r0 Hr0. right.
        exact (Hd r0 Hr0). }
    split.
    { rewrite List.filter_app. apply NoDup_app.
      split; [exact Hndd|]. split; [|exact Hnd'].
      intros d Hd Hd'.
      apply list_elem_of_In, filter_In in Hd as [Hd Hn].
      apply list_elem_of_In, filter_In in Hd' as [Hd' _].
      apply list_elem_of_In in Hd, Hd'.
      rewrite Forall_forall in Hab, Hab'.
      unfold named in Hn. destruct (about d) as [r0|] eqn:Ea;
        [|discriminate Hn].
      apply Hr. rewrite <- (Hab d Hd r0 Ea). exact (Hab' d Hd' r0 Ea). }
    split.
    { rewrite !List.filter_app, !List.length_app, Hcnt, Hcnt'.
      reflexivity. }
    split.
    { intros Hquiet. apply Forall_app. auto. }
    intros Hquiet r' Hr' Hinv.
    apply elem_of_cons in Hr' as [->|Hr'].
    + rewrite Hinv in Hv. destruct Hv as [_ Hv].
      destruct (Hv Hquiet) as [H|H]; [left|right];
        apply elem_of_app; left; exact H.
    + destruct (Hnq' Hquiet r' Hr' Hinv) as [H|H]; [left|right];
        apply elem_of_app; right; exact H.
Qed.

(** The repository ids that [validate_repositories] would stumble on: the
    ones whose opening gives Python's [None] or whose checks raise an
    exception that neither handler takes. *)
Definition hazard_free (c : client) : Prop :=
  forall r, r ∈ order (SystemSettings c) -> fatal c r = false.

Lemma validate_spec (quiet : bool) (c : client) :
  NoDup (order (SystemSettings c)) ->
  match validate quiet c with
  | (c', Returned _) =>
      hazard_free c
      /\ enabled_repos c' = List.filter (valid c) (order (SystemSettings c))
      /\ repodb_cache c' = ∅
      /\ memory_db_instances c' = memory_db_instances c
      /\ SystemSettings c' = SystemSettings c
      /\ exists new,
           output c' = output c ++ new
           /\ Forall (fun d => forall r, about d = Some r ->
                                r ∈ order (SystemSettings c)) new
           /\ NoDup (List.filter named new)
           /\ List.length (List.filter is_please_update new)
              = List.length (List.filter is_not_available new)
           /\ (quiet = true ->
               Forall (fun d => load_warning d = true) new)
           /\ (quiet = false ->
               forall r, r ∈ order (SystemSettings c) ->
                 valid c r = false ->
                 NotAvailable r ∈ new \/ Corrupted r ∈ new)
  | (_, Raised _) =>
      exists r, r ∈ order (SystemSettings c) /\ fatal c r = true
  end.
Proof.
  intros Hnd. unfold validate, validate_repositories.
  fold validate_loop. fold close_all.
  set (c1 := with_enabled [] (with_messages_cache ∅ c)).
  change (order (SystemSettings c1)) with (order (SystemSettings c)).
  pose proof (validate_loop_spec quiet (order (SystemSettings c)) c1 c1
                (tracks_refl c1) Hnd) as H.
  destruct (validate_loop quiet (order (SystemSettings c)) c1)
    as [c2 [[]|e]]; [|exact H].
  destruct H as [Hfat ((Hf & _) & Hen & new & Hout & Hrest)].
  split; [exact Hfat|].
  destruct (close_all_frame false c2) as (Hen2 & Hout2 & _).
  destruct Hf as (Hs & Hm & _).
  rewrite Hen2, Hout2, close_all_cache, close_all_memory,
    close_all_settings.
  repeat split; auto.
  exists new. split; [exact Hout | exact Hrest].
Qed.

(** *** What the methods guarantee *)

(** [close_all_repositories] never touches [memory_db_instances]: the table
    is as before, the cache is empty, [closeDB] was called on every cached
    database object whose key is not in the table, and on no object of the
    table that was open before. *)
Theorem close_all_repositories_spares_memory (mask_clear : bool)
    (c : client) :
  coherent c ->
  memory_db_instances (close_all mask_clear c) = memory_db_instances c
  /\ repodb_cache (close_all mask_clear c) = ∅
  /\ (forall k h, repodb_cache c !! k = Some h ->
                  k ∉ dom (memory_db_instances c) ->
                  h ∈ closeDB_calls (close_all mask_clear c))
  /\ (forall k h, memory_db_instances c !! k = Some h ->
                  h ∉ closeDB_calls c ->
                  h ∉ closeDB_calls (close_all mask_clear c)).
Proof.
  intros Hco. split; [apply close_all_memory|].
  split; [apply close_all_cache|]. split.
  - intros k h Hl Hn. apply close_all_calls. right. eauto.
  - intros k h Hm Hopen Hclosed.
    apply close_all_calls in Hclosed as [H|(k' & Hn & Hl)]; [auto|].
    apply Hn. exact (Hco k' k h Hl Hm).
Qed.

(** After [close_all_repositories(mask_clear = False)] a temporary
    repository still opens, and opens to its database object of
    [memory_db_instances]. *)
Theorem memory_repository_reopens (c : client) (r : string)
    (data : repo_settings) (h : handle) :
  String.eqb r clientdbid = false ->
  available (SystemSettings c) !! r = Some data ->
  temporary data = true ->
  memory_db_instances c !! key r = Some h ->
  snd (open r (close_all false c)) = Returned (Some h).
Proof.
  intros Hcl Hav Htemp Hmem.
  unfold open, open_repository. rewrite Hcl. fold key. fold close_all.
  rewrite close_all_cache, lookup_empty.
  unfold load_repository_database. fold close_all.
  rewrite close_all_settings, Hav, Htemp. fold key.
  rewrite close_all_memory, Hmem. reflexivity.
Qed.

(** A repository that opened opens again to the same database object,
    without anything else changing: the second call is answered by the
    cache. *)
Theorem open_repository_cached (c c1 : client) (r : string) (h : handle) :
  open r c = (c1, Returned (Some h)) ->
  open r c1 = (c1, Returned (Some h)).
Proof.
  unfold open, open_repository. fold key.
  destruct (String.eqb r clientdbid).
  { intros [= <- H]. rewrite H. reflexivity. }
  destruct (repodb_cache c !! key r) as [h0|] eqn:Hc.
  { intros [= <- <-]. rewrite Hc. reflexivity. }
  destruct (load_repository_database _ _ _ r c) as [c' [[h'|]|e]];
    try discriminate.
  intros [= <- <-]. simpl. rewrite lookup_insert_eq. reflexivity.
Qed.







(** When [validate_repositories] returns, the enabled list holds the
    repository ids of the priority order that open and pass both database
    checks, in that order, and the cache is empty again; an id that cannot
    be opened or fails a check is left out. *)
Theorem validate_repositories_enabled (quiet : bool) (c c' : client) :
  NoDup (order (SystemSettings c)) ->
  validate quiet c = (c', Returned ()) ->
  enabled_repos c' = List.filter (valid c) (order (SystemSettings c))
  /\ repodb_cache c' = ∅
  /\ forall r, valid c r = false -> r ∉ enabled_repos c'.
Proof.
  intros Hnd Hv. pose proof (validate_spec quiet c Hnd) as H.
  rewrite Hv in H. destruct H as (_ & Hen & Hcache & _).
  split; [exact Hen|]. split; [exact Hcache|].
  intros r Hr Hin. rewrite Hen in Hin.
  apply list_elem_of_In, filter_In in Hin as [_ Hin]. congruence.
Qed.

(** [validate_repositories] returns whenever no repository of the priority
    order opens to [None] or raises an exception outside the two
    handlers. *)
Theorem validate_repositories_returns (quiet : bool) (c : client) :
  NoDup (order (SystemSettings c)) ->
  hazard_free c ->
  exists c', validate quiet c = (c', Returned ()).
Proof.
  intros Hnd Hh. pose proof (validate_spec quiet c Hnd) as H.
  destruct (validate quiet c) as [c' [[]|e]]; [eauto|].
  destruct H as (r & Hr & Hf). rewrite (Hh r Hr) in Hf. discriminate.
Qed.

Lemma length_append (a b : string) :
  String.length (a +:+ b) = (String.length a + String.length b)%nat.
Proof.
  induction a as [|x a IH]; [reflexivity|].
  change (String x a +:+ b) with (String x (a +:+ b)). simpl.
  rewrite IH. reflexivity.
Qed.

Lemma append_same_length_suffix (s1 s2 t1 t2 : string) :
  String.length t1 = String.length t2 ->
  s1 +:+ t1 = s2 +:+ t2 -> t1 = t2.
Proof.
  intros Hlen Heq.
  assert (Hl : String.length s1 = String.length s2).
  { apply (f_equal String.length) in Heq. rewrite !length_append in Heq.
    lia. }
  clear Hlen. revert s2 Hl Heq.
  induction s1 as [|x s1 IH]; intros [|y s2] Hl Heq; try discriminate.
  - exact Heq.
  - change (String x (s1 +:+ t1) = String y (s2 +:+ t2)) in Heq.
    injection Heq as _ Heq. injection Hl as Hl. exact (IH s2 Hl Heq).
Qed.

Lemma append_inv_tail (a b s : string) : a +:+ s = b +:+ s -> a = b.
Proof.
  intros Heq.
  assert (Hl : String.length a = String.length b).
  { apply (f_equal String.length) in Heq. rewrite !length_append in Heq.
    lia. }
  revert b Hl Heq.
  induction a as [|x a IH]; intros [|y b] Hl Heq; try discriminate Hl.
  - reflexivity.
  - change (String x (a +:+ s) = String y (b +:+ s)) in Heq.
    injection Heq as -> Heq. injection Hl as Hl.
    rewrite (IH b Hl Heq). reflexivity.
Qed.

(** The warnings of the two failure classes never read the same. *)
Lemma render_classes_differ (r r' : string) :
  render (NotAvailable r) <> render (Corrupted r').
Proof.
  intros H.
  change (render (NotAvailable r))
    with ("Repository " +:+ (r +:+ (" is not availabl"
                                     +:+ "e. Cannot validate"))) in H.
  change (render (Corrupted r'))
    with ("Repository " +:+ (r' +:+ (" is corrupte"
                                      +:+ "d. Cannot validate"))) in H.
  apply (inj (String.app "Repository ")) in H.
  rewrite <- !PosixPathFacts.append_assoc in H.
  apply append_same_length_suffix in H; [discriminate | reflexivity].
Qed.

Lemma render_not_downloaded_differs (r r' : string) (d : diagnostic) :
  d = NotAvailable r' \/ d = Corrupted r' ->
  render (NotDownloaded r) <> render d.
Proof.
  intros Hd H.
  change (render (NotDownloaded r))
    with ("Repository " +:+ (r +:+ (" hasn't been downloaded yet"
                                     +:+ "."))) in H.
  destruct Hd as [-> | ->].
  - change (render (NotAvailable r'))
      with ("Repository " +:+ (r' +:+ (" is not available. Cannot validat"
                                        +:+ "e"))) in H.
    apply (inj (String.app "Repository ")) in H.
    rewrite <- !PosixPathFacts.append_assoc in H.
    apply append_same_length_suffix in H; [discriminate | reflexivity].
  - change (render (Corrupted r'))
      with ("Repository " +:+ (r' +:+ (" is corrupted. Cannot validat"
                                        +:+ "e"))) in H.
    apply (inj (String.app "Repository ")) in H.
    rewrite <- !PosixPathFacts.append_assoc in H.
    apply append_same_length_suffix in H; [discriminate | reflexivity].
Qed.

Definition first_char (s : string) : option ascii :=
  match s with
  | String x _ => Some x
  | EmptyString => None
  end.

Ltac by_first_char H :=
  exfalso; apply (f_equal first_char) in H; vm_compute in H;
  discriminate H.

Ltac by_repository_id H suffix :=
  f_equal;
  apply (inj (String.app "Repository ")) in H;
  exact (append_inv_tail _ _ suffix H).

(** Two warnings that read the same are the same warning. *)
Lemma render_inj (d d' : diagnostic) : render d = render d' -> d = d'.
Proof.
  intros H.
  destruct d as [r|r|r| |r], d' as [r'|r'|r'| |r'];
    try reflexivity; try (by_first_char H).
  - f_equal.
    exact (inj (String.app "bad repository id specified: ") _ _ H).
  - by_repository_id H " hasn't been downloaded yet.".
  - exfalso. exact (render_not_downloaded_differs r r' _ (or_introl eq_refl) H).
  - exfalso. exact (render_not_downloaded_differs r r' _ (or_intror eq_refl) H).
  - exfalso. symmetry in H.
    exact (render_not_downloaded_differs r' r _ (or_introl eq_refl) H).
  - by_repository_id H " is not available. Cannot validate".
  - exfalso. exact (render_classes_differ r r' H).
  - exfalso. symmetry in H.
    exact (render_not_downloaded_differs r' r _ (or_intror eq_refl) H).
  - exfalso. symmetry in H. exact (render_classes_differ r' r H).
  - by_repository_id H " is corrupted. Cannot validate".
Qed.

Lemma NoDup_map_render (l : list diagnostic) :
  NoDup l -> NoDup (List.map render l).
Proof.
  induction l as [|d l IH]; intros Hnd; [apply NoDup_nil; exact I|].
  apply NoDup_cons in Hnd as [Hd Hnd]. cbn [List.map].
  apply NoDup_cons. split; [|exact (IH Hnd)].
  intros Hin. apply list_elem_of_In, in_map_iff in Hin as (d' & Heq & Hin).
  apply render_inj in Heq. subst d'. apply Hd, list_elem_of_In. exact Hin.
Qed.

(** The warnings one call of [validate_repositories] hands to the output.
    Every text that names a repository names one of the priority order and
    is handed over once only; the request to update the repositories, which
    names none, comes once with every "is not available" warning; the two
    failure classes read differently; with [quiet] set only the warnings of
    [load_repository_database] remain, and without it every repository left
    out has its "not available" or "corrupted" warning. *)
Theorem validate_repositories_diagnostics (quiet : bool) (c c' : client) :
  NoDup (order (SystemSettings c)) ->
  validate quiet c = (c', Returned ()) ->
  exists new,
    output c' = output c ++ new
    /\ NoDup (List.map render (List.filter named new))
    /\ Forall (fun d => forall r, about d = Some r ->
                         r ∈ order (SystemSettings c)) new
    /\ List.length (List.filter is_please_update new)
       = List.length (List.filter is_not_available new)
    /\ (forall r r', render (NotAvailable r) <> render (Corrupted r'))
    /\ (quiet = true -> Forall (fun d => load_warning d = true) new)
    /\ (quiet = false ->
        forall r, r ∈ order (SystemSettings c) -> r ∉ enabled_repos c' ->
          NotAvailable r ∈ new \/ Corrupted r ∈ new).
Proof.
  intros Hnd Hv. pose proof (validate_spec quiet c Hnd) as H.
  rewrite Hv in H.
  destruct H as (_ & Hen & _ & _ & _ & new & Hout & Hab & Hndn & Hcnt & Hq
                 & Hnq).
  exists new. split; [exact Hout|].
  split; [exact (NoDup_map_render _ Hndn)|].
  split; [exact Hab|]. split; [exact Hcnt|].
  split; [exact render_classes_differ|]. split; [exact Hq|].
  intros Hquiet r Hr Hout'. apply (Hnq Hquiet r Hr).
  destruct (valid c r) eqn:E; [|reflexivity].
  exfalso. apply Hout'. rewrite Hen. apply list_elem_of_In, filter_In.
  split; [apply list_elem_of_In; exact Hr | exact E].
Qed.

End Facts.

(** A client with four repositories in its priority order: [main] has its
    database, the database of [gone] was never downloaded, the one of
    [bad] fails its checks, and [ghost] is not a known repository; a
    temporary repository [tmp] lives in memory. *)
Definition sample_isfile (p : string) : bool :=
  String.eqb p "/db/main/packages.db" || String.eqb p "/db/bad/packages.db".

Definition sample_db_raises (r : string) : option exn :=
  if String.eqb r "bad" then Some DatabaseError else None.

Definition sample_settings : settings :=
  {| available :=
       {[ "main" := {| temporary := false; dbpath := "/db/main" |};
          "gone" := {| temporary := false; dbpath := "/db/gone" |};
          "bad" := {| temporary := false; dbpath := "/db/bad" |};
          "tmp" := {| temporary := true; dbpath := "/tmp/x" |} ]};
     excluded := ∅;
     order := ["main"; "gone"; "bad"; "ghost"] |}.

Definition sample_client : client :=
  {| SystemSettings := sample_settings;
     repodb_cache := {[ ("main", "") := 0%nat ]};
     memory_db_instances := {[ ("tmp", "") := 1%nat ]};
     repo_error_messages_cache := ∅;
     enabled_repos := [];
     installed_repository := Some 2%nat;
     can_run_sys_set_hooks := true;
     repositoriesconf := None;
     next_handle := 3%nat;
     closeDB_calls := [];
     stderr := [];
     output := [] |}.

Definition sample_validate (quiet : bool) : client * result unit :=
  validate_repositories "" "client" "packages.db" sample_isfile
    sample_db_raises (fun _ => false) (fun _ s => s) quiet sample_client.

Example sample_validate_loud :
  enabled_repos (fst (sample_validate false)) = ["main"]
  /\ output (fst (sample_validate false))
     = [NotDownloaded "gone"; NotAvailable "gone"; PleaseUpdate;
        Corrupted "bad";
        BadRepositoryId "ghost"; NotAvailable "ghost"; PleaseUpdate]
  /\ closeDB_calls (fst (sample_validate false)) = [3%nat; 0%nat]
  /\ snd (sample_validate false) = Returned ().
Proof. vm_compute. repeat split; reflexivity. Qed.

(** With [quiet] set the warnings of [load_repository_database] are still
    handed to the output. *)
Example sample_validate_quiet :
  output (fst (sample_validate true))
  = [NotDownloaded "gone"; BadRepositoryId "ghost"].
Proof. vm_compute. reflexivity. Qed.

Lemma sample_order_nodup : NoDup (order (SystemSettings sample_client)).
Proof.
  simpl. repeat (apply NoDup_cons; split;
                 [rewrite ?elem_of_cons, ?elem_of_nil; intros H;
                  repeat destruct H as [H|H]; discriminate H || exact H|]).
  apply NoDup_nil. exact I.
Qed.

Lemma sample_coherent : coherent sample_client.
Proof.
  intros k k' h Hc Hm. simpl in Hc, Hm.
  apply lookup_singleton_Some in Hc as [_ <-].
  apply lookup_singleton_Some in Hm as [_ Hm]. discriminate Hm.
Qed.

Lemma close_all_repositories_spares_memory_witness :
  memory_db_instances
    (close_all_repositories (fun _ => false) (fun _ s => s) true
                            sample_client)
  = memory_db_instances sample_client.
Proof.
  apply (close_all_repositories_spares_memory "" "client" "packages.db" ".tbz2"
           sample_isfile sample_db_raises (fun _ => false) (fun _ s => s)
           true
           true sample_client sample_coherent).
Defined.

Lemma memory_repository_reopens_witness :
  snd (open_repository "" "client" "packages.db" sample_isfile "tmp"
         (close_all_repositories (fun _ => false) (fun _ s => s) false
                                 sample_client))
  = Returned (Some 1%nat).
Proof.
  apply (memory_repository_reopens "" "client" "packages.db" ".tbz2"
           sample_isfile sample_db_raises (fun _ => false) (fun _ s => s)
           true
           sample_client "tmp"
           {| temporary := true; dbpath := "/tmp/x" |} 1%nat);
    vm_compute; reflexivity.
Defined.

Lemma open_repository_cached_witness :
  open_repository "" "client" "packages.db" sample_isfile "bad"
    (fst (open_repository "" "client" "packages.db" sample_isfile "bad"
            sample_client))
  = (fst (open_repository "" "client" "packages.db" sample_isfile "bad"
            sample_client), Returned (Some 3%nat)).
Proof.
  apply (open_repository_cached "" "client" "packages.db" sample_isfile
           sample_client).
  vm_compute. reflexivity.
Defined.


Lemma validate_repositories_enabled_witness :
  enabled_repos (fst (sample_validate false))
  = List.filter (valid "" "client" "packages.db" sample_isfile
                       sample_db_raises sample_client)
                (order (SystemSettings sample_client))
  /\ repodb_cache (fst (sample_validate false)) = ∅
  /\ forall r, valid "" "client" "packages.db" sample_isfile
                     sample_db_raises sample_client r = false ->
               r ∉ enabled_repos (fst (sample_validate false)).
Proof.
  apply (validate_repositories_enabled "" "client" "packages.db" ".tbz2"
           sample_isfile sample_db_raises (fun _ => false) (fun _ s => s)
           true
           false sample_client (fst (sample_validate false))
           sample_order_nodup).
  vm_compute. reflexivity.
Defined.

Lemma validate_repositories_returns_witness :
  exists c', sample_validate true = (c', Returned ()).
Proof.
  apply (validate_repositories_returns "" "client" "packages.db" ".tbz2"
           sample_isfile sample_db_raises (fun _ => false) (fun _ s => s)
           true
           true sample_client sample_order_nodup).
  intros r Hr. simpl in Hr.
  rewrite !elem_of_cons, elem_of_nil in Hr.
  destruct Hr as [->|[->|[->|[->|[]]]]]; vm_compute; reflexivity.
Defined.

Lemma validate_repositories_diagnostics_witness :
  exists new,
    output (fst (sample_validate false)) = output sample_client ++ new
    /\ NoDup (List.map render
                       (List.filter named new))
    /\ List.length (List.filter is_please_update new)
       = List.length (List.filter is_not_available new).
Proof.
  destruct (validate_repositories_diagnostics "" "client" "packages.db" ".tbz2"
           sample_isfile sample_db_raises (fun _ => false) (fun _ s => s)
           true
              false sample_client
              (fst (sample_validate false)) sample_order_nodup)
    as (new & Hout & Hnd & _ & Hcnt & _).
  { vm_compute. reflexivity. }
  exists new. split; [exact Hout|]. split; [exact Hnd | exact Hcnt].
Defined.

End RepositoryMixinFacts.

(** ** [MiscMixin]: checking and waiting for the resources lock *)

Module LockCheck.
Import PyStr MiscMixin.

(** [f.readline()] on a file read from its start: the text up to and
    including the first line feed. *)
Fixpoint readline (content : string) : string :=
  match content with
  | EmptyString => EmptyString
  | String c r =>
      if Ascii.eqb c (ascii_of_nat 10) then String c EmptyString
      else String c (readline r)
  end.

(** [int(s)] on a stripped string: an optional sign followed by decimal
    digits, [None] standing for [ValueError]. *)
Definition py_int (s : string) : option Z :=
  match s with
  | String "+"%char r =>
      option_map (fun u => Z.of_int (Decimal.Pos u))
                 (NilZero.uint_of_string r)
  | _ => option_map Z.of_int (NilZero.int_of_string s)
  end.

Section WithProcess.

(** [os.getpid()] and [const_pid_exists]. *)
Variable getpid : Z.
Variable const_pid_exists : Z -> bool.

Definition check_pid_file_lock (pidfile : string) (w : world) : bool :=
  match files w !! pidfile with
  | None => false
  | Some content =>
      let s_pid := strip (readline content) in
      match py_int s_pid with
      | None => false
      | Some s_pid =>
          negb (s_pid =? getpid) && const_pid_exists s_pid
      end
  end.

(** [etpConst['locks']['using_resources']]. *)
Variable using_resources : string.

Definition resources_check_lock (w : world) : bool :=
  check_pid_file_lock using_resources w.

End WithProcess.

(** What [lock_check] does besides returning: the messages it hands to the
    output and the time it sleeps, in milliseconds. *)
Inductive wait_event : Type :=
  | ResourcesUnlocked
  | GivingUp
  | ResourcesLocked (lock_count : Z)
  | Sleep (milliseconds : Z).

Definition max_lock_count : Z := 600.

(** The [while True] loop of [lock_check].  [check_function] answers its
    [n]-th call with [check_function n]; [calls] counts the calls made so
    far.  The loop is unfolded [fuel] times at most, [None] telling that
    this was not enough. *)
Fixpoint lock_check_loop (fuel : nat) (check_function : nat -> bool)
    (calls : nat) (lock_count : Z) : option (list wait_event * bool) :=
  match fuel with
  | O => None
  | S fuel' =>
      let locked := check_function calls in
      if negb locked
      then Some ((if lock_count >? 0 then [ResourcesUnlocked; Sleep 5000]
                  else []), false)
      else if lock_count >=? max_lock_count
      then Some ([GivingUp], true)
      else
        let lock_count := lock_count + 1 in
        match lock_check_loop fuel' check_function (S calls) lock_count with
        | Some (evs, r) =>
            Some (ResourcesLocked lock_count :: Sleep 500 :: evs, r)
        | None => None
        end
  end.

Definition lock_check (fuel : nat) (check_function : nat -> bool)
  : option (list wait_event * bool) :=
  lock_check_loop fuel check_function 0 0.

(** The time slept, in milliseconds. *)
Fixpoint slept (evs : list wait_event) : Z :=
  match evs with
  | [] => 0
  | Sleep ms :: rest => ms + slept rest
  | _ :: rest => slept rest
  end.

End LockCheck.

Module LockCheckFacts.
Import PyStr MiscMixin LockCheck MiscMixinFacts.

(** *** Waiting *)

Lemma lock_check_loop_spec (check : nat -> bool) (fuel k : nat) :
  (fuel + k = 601)%nat -> (k <= 600)%nat ->
  exists evs r,
    lock_check_loop fuel check k (Z.of_nat k) = Some (evs, r)
    /\ (r = true <-> forall i, (k <= i <= 600)%nat -> check i = true)
    /\ (r = true -> slept evs = 500 * (600 - Z.of_nat k))
    /\ (r = false ->
        exists n, (k <= n <= 600)%nat /\ check n = false
          /\ (forall i, (k <= i < n)%nat -> check i = true)
          /\ slept evs = 500 * (Z.of_nat n - Z.of_nat k)
                         + (if (0 <? Z.of_nat n) then 5000 else 0)).
Proof.
  revert k. induction fuel as [|fuel IH]; intros k Hk Hle.
  { lia. }
  cbn [lock_check_loop].
  destruct (check k) eqn:Ek; cbn [negb].
  2:{ eexists _, false. split; [reflexivity|]. split; [|split].
      - split; [discriminate|]. intros H.
        rewrite (H k) in Ek by lia. discriminate.
      - discriminate.
      - intros _. exists k. split; [lia|]. split; [exact Ek|].
        split; [intros i Hi; lia|].
        replace (Z.of_nat k - Z.of_nat k) with 0 by lia.
        destruct (Z.of_nat k >? 0) eqn:E1, (0 <? Z.of_nat k) eqn:E2;
          simpl; lia. }
  unfold max_lock_count.
  destruct (Z.of_nat k >=? 600) eqn:E.
  { assert (k = 600%nat) by lia. subst k.
    eexists _, true. split; [reflexivity|]. split; [|split].
    - split; [|reflexivity]. intros _ i Hi.
      assert (i = 600%nat) by lia. subst i. exact Ek.
    - intros _. reflexivity.
    - discriminate. }
  assert (Hlt : (k < 600)%nat) by lia.
  destruct (IH (S k)) as (evs & r & Heq & Hiff & Htrue & Hfalse);
    [lia | lia |].
  replace (Z.of_nat k + 1) with (Z.of_nat (S k)) by lia.
  rewrite Heq. eexists _, r. split; [reflexivity|]. split; [|split].
  - rewrite Hiff. split.
    + intros H i Hi. destruct (decide (i = k)) as [->|]; [exact Ek|].
      apply H. lia.
    + intros H i Hi. apply H. lia.
  - intros Hr. cbn [slept]. rewrite (Htrue Hr). lia.
  - intros Hr. destruct (Hfalse Hr) as (n & Hn & Hcn & Hbefore & Hs).
    exists n. split; [lia|]. split; [exact Hcn|]. split.
    + intros i Hi. destruct (decide (i = k)) as [->|]; [exact Ek|].
      apply Hbefore. lia.
    + cbn [slept]. rewrite Hs.
      destruct (0 <? Z.of_nat n) eqn:E2; lia.
Qed.

(** [lock_check] ends within 601 calls of the check function.  It gives up
    (returns [True]) exactly when all of these find the resources locked,
    having slept 600 times half a second; otherwise it returns [False] at
    the first call that finds them unlocked, having slept half a second
    for each call before and five seconds more if there was one. *)
Theorem lock_check_bounded (check : nat -> bool) :
  exists evs r,
    lock_check 601 check = Some (evs, r)
    /\ (r = true <-> forall i, (i <= 600)%nat -> check i = true)
    /\ (r = true -> slept evs = 300000)
    /\ (r = false ->
        exists n, (n <= 600)%nat /\ check n = false
          /\ (forall i, (i < n)%nat -> check i = true)
          /\ slept evs = 500 * Z.of_nat n
                         + (if (0 <? Z.of_nat n) then 5000 else 0)).
Proof.
  destruct (lock_check_loop_spec check 601 0 eq_refl)
    as (evs & r & Heq & Hiff & Htrue & Hfalse); [lia|].
  exists evs, r. split; [exact Heq|]. split; [|split].
  - rewrite Hiff. split; intros H i Hi; apply H; lia.
  - intros Hr. rewrite (Htrue Hr). reflexivity.
  - intros Hr. destruct (Hfalse Hr) as (n & Hn & Hc & Hb & Hs).
    exists n. split; [lia|]. split; [exact Hc|]. split.
    + intros i Hi. apply Hb. lia.
    + rewrite Hs. simpl. lia.
Qed.

Example lock_check_third_call :
  lock_check 601 (fun n => Nat.ltb n 2)
  = Some ([ResourcesLocked 1; Sleep 500; ResourcesLocked 2; Sleep 500;
           ResourcesUnlocked; Sleep 5000], false).
Proof. reflexivity. Qed.


(** *** Reading the PID file *)

Definition is_digit (c : ascii) : bool :=
  let n := nat_of_ascii c in (Nat.leb 48 n && Nat.leb n 57)%bool.

Fixpoint all_digits (s : string) : bool :=
  match s with
  | EmptyString => true
  | String c r => is_digit c && all_digits r
  end.

Lemma uint_digits (d : Decimal.uint) :
  all_digits (NilEmpty.string_of_uint d) = true.
Proof. induction d; simpl; auto. Qed.

Lemma str_of_int_digits (n : Z) :
  0 <= n -> all_digits (str_of_int n) = true.
Proof.
  intros Hn. unfold str_of_int. destruct n as [|p|p]; [reflexivity| |lia].
  simpl. unfold NilZero.string_of_uint.
  destruct (Pos.to_uint p); try reflexivity; apply (uint_digits (_ u)).
Qed.

Lemma digit_not_space (c : ascii) :
  is_digit c = true ->
  is_space c = false /\ Ascii.eqb c (ascii_of_nat 10) = false
  /\ Ascii.eqb c "+" = false.
Proof.
  destruct c as [[|] [|] [|] [|] [|] [|] [|] [|]]; vm_compute;
    intros H; try discriminate H; auto.
Qed.

Lemma readline_digits (s : string) :
  all_digits s = true -> readline s = s.
Proof.
  induction s as [|c r IH]; [reflexivity|]. simpl.
  intros H. apply andb_true_iff in H as [Hc Hr].
  destruct (digit_not_space c Hc) as (_ & -> & _). rewrite (IH Hr).
  reflexivity.
Qed.

Lemma rstrip_digits (s : string) :
  all_digits s = true -> rstrip s = s.
Proof.
  induction s as [|c r IH]; [reflexivity|]. simpl.
  intros H. apply andb_true_iff in H as [Hc Hr].
  destruct (digit_not_space c Hc) as (-> & _). rewrite (IH Hr).
  rewrite andb_false_r. reflexivity.
Qed.

Lemma strip_digits (s : string) :
  all_digits s = true -> strip s = s.
Proof.
  intros H. unfold strip.
  assert (Hl : lstrip s = s).
  { destruct s as [|c r]; [reflexivity|]. simpl in *.
    apply andb_true_iff in H as [Hc _].
    destruct (digit_not_space c Hc) as (-> & _). reflexivity. }
  rewrite Hl. apply rstrip_digits. exact H.
Qed.

(** Reading back a process id that was written with [str]. *)
Lemma py_int_str_of_int (n : Z) :
  0 <= n -> py_int (str_of_int n) = Some n.
Proof.
  intros Hn. pose proof (str_of_int_digits n Hn) as Hd.
  unfold py_int.
  assert (Hparse : option_map Z.of_int
                     (NilZero.int_of_string (str_of_int n)) = Some n).
  { unfold str_of_int. rewrite NilZero.isi.
    - simpl. rewrite DecimalZ.of_to. reflexivity.
    - destruct n as [|p|p]; simpl; try discriminate.
      intros [= H]. exact (DecimalPos.Unsigned.to_uint_nonnil p H).
    - destruct n as [|p|p]; simpl; try discriminate; lia. }
  destruct (str_of_int n) as [|c r]; [exact Hparse|].
  simpl in Hd. apply andb_true_iff in Hd as [Hc _].
  destruct (digit_not_space c Hc) as (_ & _ & Hplus).
  destruct c as [[|] [|] [|] [|] [|] [|] [|] [|]];
    try exact Hparse; vm_compute in Hplus; discriminate Hplus.
Qed.

Lemma read_own_pid_file (n : Z) :
  0 <= n -> py_int (strip (readline (str_of_int n))) = Some n.
Proof.
  intros Hn. pose proof (str_of_int_digits n Hn) as Hd.
  rewrite (readline_digits _ Hd), (strip_digits _ Hd).
  apply py_int_str_of_int. exact Hn.
Qed.

Section Facts.

Variable using_resources : string.

(** Once a process has taken the resources lock from the released state,
    [resources_check_lock] tells that process that the resources are not
    locked, and tells every other process that sees it alive that they
    are. *)
Theorem acquired_lock_is_seen (holder other : Z)
    (pid_exists : Z -> bool) (w w1 : world) :
  0 <= holder ->
  holder <> other ->
  pid_exists holder = true ->
  RESOURCES_LOCK_F_REF w = None ->
  resources_create_lock using_resources holder w = (w1, true) ->
  resources_check_lock holder pid_exists using_resources w1 = false
  /\ resources_check_lock other pid_exists using_resources w1 = true.
Proof.
  intros Hpos Hne Halive Href Hacq.
  destruct (flocks w !! using_resources) as [h|] eqn:Hl.
  { pose proof (create_contended using_resources holder w h Href Hl) as Hf.
    rewrite Hacq in Hf. discriminate Hf. }
  rewrite (create_first using_resources holder w Href Hl) in Hacq.
  injection Hacq as <-.
  unfold resources_check_lock, check_pid_file_lock. simpl.
  rewrite lookup_insert_eq, (read_own_pid_file holder Hpos).
  rewrite Z.eqb_refl, Halive. split; [reflexivity|].
  destruct (holder =? other) eqn:E; [lia | reflexivity].
Qed.

(** An attempt to take the resources lock while another process holds it
    fails, leaves the counter and the lock alone, and empties the PID
    file: the holder, that [resources_check_lock] reported before the
    attempt, is not reported any more after it. *)
Theorem contended_acquire_blinds_check (me holder : Z)
    (pid_exists : Z -> bool) (w : world) :
  0 <= holder ->
  holder <> me ->
  pid_exists holder = true ->
  RESOURCES_LOCK_F_REF w = None ->
  flocks w !! using_resources = Some OtherProcess ->
  files w !! using_resources = Some (str_of_int holder) ->
  let w1 := fst (resources_create_lock using_resources me w) in
  resources_check_lock me pid_exists using_resources w = true
  /\ snd (resources_create_lock using_resources me w) = false
  /\ RESOURCES_LOCK_F_COUNT w1 = RESOURCES_LOCK_F_COUNT w
  /\ RESOURCES_LOCK_F_REF w1 = None
  /\ flocks w1 = flocks w
  /\ files w1 !! using_resources = Some ""
  /\ resources_check_lock me pid_exists using_resources w1 = false.
Proof.
  intros Hpos Hne Halive Href Hl Hfile. cbv zeta.
  unfold resources_create_lock, create_pid_file_lock.
  rewrite Href, Hl. simpl.
  unfold resources_check_lock, check_pid_file_lock. simpl.
  rewrite Hfile, (read_own_pid_file holder Hpos), lookup_insert_eq.
  rewrite Halive.
  destruct (holder =? me) eqn:E; [lia|]. repeat split; auto.
Qed.

End Facts.

Definition held_by_other : world :=
  {| RESOURCES_LOCK_F_REF := None; RESOURCES_LOCK_F_COUNT := 0;
     files := {[ lockfile := "4242" ]};
     flocks := {[ lockfile := OtherProcess ]} |}.

Definition everyone_alive (pid : Z) : bool := true.

Lemma acquired_lock_is_seen_witness :
  resources_check_lock 4242 everyone_alive lockfile
    (fst (resources_create_lock lockfile 4242 fresh)) = false
  /\ resources_check_lock 77 everyone_alive lockfile
       (fst (resources_create_lock lockfile 4242 fresh)) = true.
Proof.
  apply (acquired_lock_is_seen lockfile 4242 77 everyone_alive fresh);
    try reflexivity; try lia.
Defined.

Lemma contended_acquire_blinds_check_witness :
  resources_check_lock 77 everyone_alive lockfile held_by_other = true
  /\ resources_check_lock 77 everyone_alive lockfile
       (fst (resources_create_lock lockfile 77 held_by_other)) = false.
Proof.
  destruct (contended_acquire_blinds_check lockfile 77 4242 everyone_alive
              held_by_other) as (H1 & _ & _ & _ & _ & _ & H2);
    try reflexivity; try lia.
  split; assumption.
Defined.

End LockCheckFacts.

(** ** More on backing up, restoring and classifying *)

Module BackupOutcomes.
Import PyStr PosixPath Backup BackupFacts.

Ltac in_cases H :=
  simpl in H; repeat destruct H as [H|H];
  try discriminate H; try contradiction.

Section Facts.

Variable dbbackupprefix : string.

(** Whatever [compress_level] a caller passes, [backup_database] hands
    [compress_file] a level between 1 and 9: the given one when it lies in
    that range and 9 otherwise; and what it compresses is [dbpath]. *)
Theorem backup_database_level (os : os_env) (now : datetime)
    (dbpath : string) (backup_dir : option string) (silent : bool)
    (level : Z) (src dst : string) (l : Z) :
  In (CompressFile src dst l)
     (fst (backup_database dbbackupprefix os now dbpath backup_dir silent
                           level)) ->
  src = dbpath /\ 1 <= l <= 9
  /\ (1 <= level <= 9 -> l = level)
  /\ (~ 1 <= level <= 9 -> l = 9).
Proof.
  unfold backup_database. rewrite backup_dir_is_dirname.
  set (l' := if (1 <=? level) && (level <=? 9) then level else 9).
  assert (Hl : 1 <= l' <= 9 /\ (1 <= level <= 9 -> l' = level)
               /\ (~ 1 <= level <= 9 -> l' = 9)).
  { unfold l'. destruct (1 <=? level) eqn:E1, (level <=? 9) eqn:E2;
      simpl; lia. }
  destruct (negb (_ && check_required_space _ _ _)).
  - destruct silent; simpl; intros H; repeat destruct H as [H|H];
      discriminate H || contradiction.
  - destruct (compress_file_raises os dbpath _), silent; simpl;
      intros H; repeat destruct H as [H|H];
      try discriminate H; try contradiction;
      injection H as <- <- <-; auto.
Qed.

(** [restore_database] clears the client cache exactly when it returns
    [True], that is after a decompression that did not fail; and it
    decompresses only when its preflight test passed. *)
Theorem restore_database_clears_cache (os : os_env)
    (backup_path dest : string) (silent : bool) :
  let '(evs, r) := restore_database os backup_path dest silent in
  (In ClearCache evs <-> exists msg, r = Returned (true, msg))
  /\ (In (UncompressFile backup_path dest) evs <->
      restore_preflight os backup_path dest = true)
  /\ forall src dst, In (UncompressFile src dst) evs ->
                     src = backup_path /\ dst = dest.
Proof.
  unfold restore_database, restore_preflight.
  destruct (access_W os (dirname dest) && isdir os (dirname dest)
            && isfile os backup_path && access_R os backup_path
            && check_required_space os (dirname dest) (1024000 * 200));
    cbn [negb];
    [destruct (uncompress_file_raises os backup_path dest)|];
    destruct silent; simpl; (split; [|split]).
  all: try (intros src dst H; in_cases H; injection H as <- <-;
            split; reflexivity).
  all: split; intros H;
    match type of H with
    | False => contradiction
    | _ \/ _ => first [ reflexivity | in_cases H; eauto ]
    | ex _ => first [ destruct H as [msg H]; discriminate H
                    | simpl; auto 8 ]
    | _ = _ => first [ discriminate H | simpl; auto 8 ]
    end.
Qed.

End Facts.

Lemma backup_database_level_witness :
  "/var/lib/entropy/client/equo.db" = "/var/lib/entropy/client/equo.db"
  /\ 1 <= 9 <= 9 /\ (1 <= 42 <= 9 -> 9 = 42) /\ (~ 1 <= 42 <= 9 -> 9 = 9).
Proof.
  apply (backup_database_level "entropy_backup_" all_granted noon
           "/var/lib/entropy/client/equo.db" None true 42
           "/var/lib/entropy/client/equo.db"
           "/var/lib/entropy/client/entropy_backup_equo.db.201139_12h0m5s.bz2"
           9).
  vm_compute. left. reflexivity.
Defined.

Lemma preflight_failure_reported_witness :
  exists reason,
    backup_database "entropy_backup_" nothing_granted noon
      "/var/lib/entropy/client/equo.db" None false 9
    = ([Output reason], Returned (false, reason)).
Proof.
  destruct (preflight_failure_reported "entropy_backup_" nothing_granted noon
              "/var/lib/entropy/client/equo.db" None 9 "b.bz2" "/x/y")
    as [H _].
  apply H. reflexivity.
Defined.

End BackupOutcomes.

Module PackageActionMore.
Import EntropyRepository PackageAction PackageActionFacts.

Lemma get_package_action_returns_witness :
  exists a,
    get_package_action by_revision (fun _ => Returned sample_repo)
                       sample_installed (7, "main") = Returned a
    /\ (a = 1 \/ a = 0 \/ a = 2 \/ a = -1).
Proof.
  apply (get_package_action_returns by_revision
           (fun _ => Returned sample_repo) sample_installed (7, "main")
           sample_repo "app/foo" "0"); reflexivity.
Defined.

(** A candidate whose repository has no row for it makes
    [get_package_action] raise: unpacking the [None] that [retrieveKeySlot]
    answers is a [TypeError]. *)
Theorem get_package_action_unknown
    (cmp : string * string * Z -> string * string * Z -> Z)
    (open_repository : string -> result EntropyRepository.t)
    (installed : EntropyRepository.t) (m : Match)
    (dbconn : EntropyRepository.t) :
  open_repository (snd m) = Returned dbconn ->
  (forall r, In r dbconn -> idpackage r <> fst m) ->
  get_package_action cmp open_repository installed m = Raised TypeError.
Proof.
  intros Hopen Hnone. unfold get_package_action. rewrite Hopen. simpl.
  assert (Hf : fetch dbconn (fst m) = None).
  { unfold fetch. clear Hopen.
    induction dbconn as [|r db IH]; [reflexivity|].
    simpl. destruct (idpackage r =? fst m) eqn:E.
    - apply Z.eqb_eq in E. exfalso. apply (Hnone r); [left; reflexivity|].
      exact E.
    - apply IH. intros r' Hr'. apply Hnone. right. exact Hr'. }
  unfold retrieveKeySlot. rewrite Hf. reflexivity.
Qed.

Lemma get_package_action_unknown_witness :
  get_package_action by_revision (fun _ => Returned sample_repo)
                     sample_installed (8, "main") = Raised TypeError.
Proof.
  apply (get_package_action_unknown by_revision
           (fun _ => Returned sample_repo) sample_installed (8, "main")
           sample_repo eq_refl).
  intros r [<-|[]]. discriminate.
Defined.

End PackageActionMore.

(** ** More on the branch migration hook runners *)

Module BranchHooksMore.
Import PyStr BranchHooks BranchHooks.MigrationTable BranchHooksFacts.

Section Facts.

Variable systemroot : string.
Variable e : env.
Variable available : gmap string repo_meta.

Let switch_step := switch_step systemroot e available.
Let run_switch :=
  run_repositories_post_branch_switch_hooks systemroot e available.
Let upgrade_step := upgrade_step systemroot e available.
Let upgrade_from_step := upgrade_from_step systemroot e.
Let run_upgrade :=
  run_repository_post_branch_upgrade_hooks systemroot e available.

(** *** The post-upgrade runner, called twice *)

Section UpgradeTwice.

Variable branch : string.















End UpgradeTwice.

End Facts.
End BranchHooksMore.
